(** * Adrenale5 tournament schedule: bracket progression engine

    A shallow embedding of the engine of [schedule.js] (the three
    variants share it verbatim) and of the score endpoint [handler]:
    time arithmetic, bracket construction, winner and team resolution,
    the day gate, score editing and reset.

    Conventions of the embedding.
    - A JavaScript string is a [string] whose characters are UTF-16 code
      units below 256.
    - A JavaScript number is an IEEE 754 binary64 value, [spec_float]
      with precision 53 and maximal exponent 1024. Hours and minutes of
      the clock are integers, in a range where binary64 is exact.
    - An object used as a map is the [gmap] of its own properties.
    - [null] as a function result is [None]; a thrown exception is
      [Throw]. *)

From Stdlib Require Import ZArith NArith String Ascii List Bool Lia.
From Stdlib Require Import SpecFloat DecimalString.
From stdpp Require Import base option list strings gmap.

Local Open Scope string_scope.
Local Open Scope list_scope.
Local Open Scope Z_scope.

(** ** JavaScript values and numbers *)

Definition number : Type := spec_float.

Definition prec : Z := 53.
Definition emax : Z := 1024.

Definition NaN : number := S754_nan.
Definition Infinity (neg : bool) : number := S754_infinity neg.
Definition pos_zero : number := S754_zero false.

(** The number that an integer literal denotes, rounded to nearest even. *)
Definition num_of_Z (z : Z) : number := binary_normalize prec emax z 0 false.

(** The scalar values an entry of the ledger or of a JSON body can hold. *)
Inductive value : Type :=
  | Undefined
  | Null
  | Bool (b : bool)
  | Num (n : number)
  | Str (s : string).

(** [Number.isFinite] on a number. *)
Definition Number_isFinite (n : number) : bool :=
  match n with
  | S754_zero _ | S754_finite _ _ _ => true
  | S754_infinity _ | S754_nan => false
  end.

(** [x === y], [x !== y] and [x > y] on numbers. *)
Definition num_eq (x y : number) : bool := SFeqb x y.
Definition num_neq (x y : number) : bool := negb (SFeqb x y).
Definition num_gt (x y : number) : bool := SFltb y x.

(** ** Characters *)

Definition code (c : ascii) : N := N_of_ascii c.

(** WhiteSpace and LineTerminator code units below 256: what [trim], the
    regular-expression class [\s] and the numeric-string grammar skip. *)
Definition is_space (c : ascii) : bool :=
  let n := code c in
  ((9 <=? n) && (n <=? 13) || (n =? 32) || (n =? 160))%N.

(** The class [\d]. *)
Definition is_digit (c : ascii) : bool :=
  let n := code c in ((48 <=? n) && (n <=? 57))%N.

Definition digit_val (c : ascii) : N := (code c - 48)%N.

(** The value of a hexadecimal digit. *)
Definition hex_val (c : ascii) : option N :=
  let n := code c in
  if ((48 <=? n) && (n <=? 57))%N then Some (n - 48)%N
  else if ((97 <=? n) && (n <=? 102))%N then Some (n - 87)%N
  else if ((65 <=? n) && (n <=? 70))%N then Some (n - 55)%N
  else None.

(** ASCII upper-casing, as [toUpperCase] and the [i] flag act on the
    characters the schedule's patterns mention. *)
Definition upper (c : ascii) : ascii :=
  let n := code c in
  if ((97 <=? n) && (n <=? 122))%N then ascii_of_N (n - 32) else c.

Fixpoint skip_space (l : list ascii) : list ascii :=
  match l with
  | c :: r => if is_space c then skip_space r else l
  | [] => []
  end.

(** [String.prototype.trim] on the character list. *)
Definition trim_list (l : list ascii) : list ascii :=
  rev (skip_space (rev (skip_space l))).

Definition trim (s : string) : string :=
  string_of_list_ascii (trim_list (list_ascii_of_string s)).

Fixpoint span_digits (l : list ascii) : list ascii * list ascii :=
  match l with
  | c :: r =>
      if is_digit c then let '(d, t) := span_digits r in (c :: d, t)
      else ([], l)
  | [] => ([], [])
  end.

Definition digits_value (ds : list ascii) : N :=
  fold_left (fun acc c => (acc * 10 + digit_val c)%N) ds 0%N.

(** ** Coercion of a string to a number (StringToNumber) *)

(** The digits of a literal in base [base], all of them valid, at least one. *)
Fixpoint radix_value (base : N) (acc : N) (l : list ascii) : option N :=
  match l with
  | [] => Some acc
  | c :: r =>
      match hex_val c with
      | Some d => if (d <? base)%N then radix_value base (acc * base + d)%N r else None
      | None => None
      end
  end.

Definition radix_literal (base : N) (l : list ascii) : option number :=
  match l with
  | [] => None
  | _ => match radix_value base 0%N l with
         | Some v => Some (num_of_Z (Z.of_N v))
         | None => None
         end
  end.

(** ExponentPart, optional: [e] or [E], an optional sign, digits. *)
Definition exponent_part (l : list ascii) : option Z :=
  match l with
  | [] => Some 0
  | c :: r =>
      if Ascii.eqb c "e" || Ascii.eqb c "E" then
        let '(neg, r') :=
          match r with
          | "+"%char :: t => (false, t)
          | "-"%char :: t => (true, t)
          | _ => (false, r)
          end in
        match span_digits r' with
        | (d :: ds, []) =>
            let v := Z.of_N (digits_value (d :: ds)) in
            Some (if neg then - v else v)
        | _ => None
        end
      else None
  end.

(** The number value of [m * 10^e], correctly rounded; a zero keeps the
    sign of the literal. *)
Definition round_decimal (neg : bool) (m : N) (e : Z) : number :=
  match m with
  | N0 => S754_zero neg
  | Npos p =>
      match e with
      | Zneg k =>
          SFdiv prec emax (S754_finite neg p 0)
                (S754_finite false (Pos.pow 10 k) 0)
      | _ => binary_normalize prec emax
               ((if neg then Z.neg p else Z.pos p) * 10 ^ e) 0 neg
      end
  end.

(** StrUnsignedDecimalLiteral. *)
Definition unsigned_decimal (neg : bool) (l : list ascii) : option number :=
  if decide (l = list_ascii_of_string "Infinity") then Some (Infinity neg)
  else
    let '(ip, r1) := span_digits l in
    match r1 with
    | "."%char :: r2 =>
        let '(fp, r3) := span_digits r2 in
        match ip ++ fp with
        | [] => None
        | ds =>
            match exponent_part r3 with
            | Some e => Some (round_decimal neg (digits_value ds)
                                (e - Z.of_nat (length fp)))
            | None => None
            end
        end
    | _ =>
        match ip with
        | [] => None
        | _ => match exponent_part r1 with
               | Some e => Some (round_decimal neg (digits_value ip) e)
               | None => None
               end
        end
    end.

(** StrNumericLiteral on the trimmed text. *)
Definition numeric_literal (l : list ascii) : option number :=
  match l with
  | "0"%char :: p :: r =>
      if Ascii.eqb p "x" || Ascii.eqb p "X" then radix_literal 16 r
      else if Ascii.eqb p "o" || Ascii.eqb p "O" then radix_literal 8 r
      else if Ascii.eqb p "b" || Ascii.eqb p "B" then radix_literal 2 r
      else unsigned_decimal false l
  | "+"%char :: r => unsigned_decimal false r
  | "-"%char :: r => unsigned_decimal true r
  | _ => unsigned_decimal false l
  end.

Definition StringToNumber (s : string) : number :=
  match trim_list (list_ascii_of_string s) with
  | [] => pos_zero
  | l => match numeric_literal l with
         | Some n => n
         | None => NaN
         end
  end.

(** [Number(v)]. *)
Definition Number (v : value) : number :=
  match v with
  | Undefined => NaN
  | Null => pos_zero
  | Bool true => num_of_Z 1
  | Bool false => pos_zero
  | Num n => n
  | Str s => StringToNumber s
  end.

(** [String(n)] for an integer-valued number. *)
Definition String_of_Z (z : Z) : string := NilZero.string_of_int (Z.to_int z).

(** Truthiness of a string that may be [undefined]. *)
Definition truthy_str (o : option string) : bool :=
  match o with
  | Some s => negb (String.eqb s "")
  | None => false
  end.

(** [x || d] where [x] is a string or [undefined]. *)
Definition or_default (o : option string) (d : string) : string :=
  match o with
  | Some s => if truthy_str o then s else d
  | None => d
  end.

(** ** Exceptions *)

Inductive error : Type :=
  | Error (msg : string).

Inductive result (A : Type) : Type :=
  | Ok (x : A)
  | Throw (e : error).

Arguments Ok {A} x.
Arguments Throw {A} e.

#[global] Instance result_bind : MBind result :=
  fun A B (k : A -> result B) (r : result A) =>
    match r with
    | Ok x => k x
    | Throw e => Throw e
    end.

Fixpoint mapM {A B : Type} (f : A -> result B) (l : list A) : result (list B) :=
  match l with
  | [] => Ok []
  | x :: t => y ← f x; ys ← mapM f t; Ok (y :: ys)
  end.

(** ** Time arithmetic *)

Record clock : Type := { h : Z; min : Z }.

Definition parseInt10 (l : list ascii) : Z := Z.of_N (digits_value l).

(** The tail of the pattern, after the hour and the colon:
    [(\d{2})\s*(AM|PM)$] with the [i] flag. Returns groups 2 and 3. *)
Definition match_minute_meridiem (l : list ascii)
  : option (list ascii * list ascii) :=
  match l with
  | m1 :: m2 :: t =>
      if is_digit m1 && is_digit m2 then
        match skip_space t with
        | [x; y] =>
            if (Ascii.eqb (upper x) "A" || Ascii.eqb (upper x) "P")
               && Ascii.eqb (upper y) "M"
            then Some ([m1; m2], [x; y])
            else None
        | _ => None
        end
      else None
  | _ => None
  end.

(** [/^(\d{1,2}):(\d{2})\s*(AM|PM)$/i]: the three groups of the match.
    The greedy [\d{1,2}] takes two digits when the second character is
    one; the colon that must follow decides between the two lengths. *)
Definition time_regex (l : list ascii)
  : option (list ascii * list ascii * list ascii) :=
  match l with
  | d1 :: c2 :: r =>
      if is_digit d1 then
        if is_digit c2 then
          match r with
          | c3 :: r' =>
              if Ascii.eqb c3 ":" then
                match match_minute_meridiem r' with
                | Some (g2, g3) => Some ([d1; c2], g2, g3)
                | None => None
                end
              else None
          | [] => None
          end
        else if Ascii.eqb c2 ":" then
          match match_minute_meridiem r with
          | Some (g2, g3) => Some ([d1], g2, g3)
          | None => None
          end
        else None
      else None
  | _ => None
  end.

Definition parseTime12h (str : string) : result clock :=
  match time_regex (list_ascii_of_string (trim str)) with
  | None => Throw (Error ("Bad time format: " +:+ str))
  | Some (g1, g2, g3) =>
      let h0 := parseInt10 g1 in
      let min := parseInt10 g2 in
      let ap := string_of_list_ascii (map upper g3) in
      let h1 := if String.eqb ap "PM" && negb (h0 =? 12) then h0 + 12 else h0 in
      let h2 := if String.eqb ap "AM" && (h1 =? 12) then 0 else h1 in
      Ok {| h := h2; min := min |}
  end.

(** [String(n).padStart(2, "0")]. *)
Definition pad2 (n : Z) : string :=
  let s := String_of_Z n in
  if (String.length s <? 2)%nat then "0" +:+ s else s.

Definition formatTime12h (h24 min : Z) : string :=
  let ap := if 12 <=? h24 then "PM" else "AM" in
  let h := Z.rem h24 12 in
  let h := if h =? 0 then 12 else h in
  String_of_Z h +:+ ":" +:+ pad2 min +:+ " " +:+ ap.

(** The offset is an integer, and the sums, the quotient and the
    remainders are those of the integers. The numbers of the source are
    binary64: its sums are the same while they stay below 2^53, and the
    floor of its rounded quotient is the integer quotient while the total
    stays below 60 * 2^48. *)
Definition addMinutes (timeStr : string) (minsToAdd : Z) : result string :=
  t ← parseTime12h timeStr;
  let total := h t * 60 + min t + minsToAdd in
  let h24 := Z.rem (total / 60) 24 in
  let m := Z.rem total 60 in
  Ok (formatTime12h h24 m).

(** ** Teams *)

Definition getTeamsFromAdmin
    (teamsOverride TOURNAMENT_TEAMS : option (list string)) : list string :=
  let adminTeams :=
    match teamsOverride with
    | Some l => l
    | None => match TOURNAMENT_TEAMS with Some l => l | None => [] end
    end in
  map (fun i : nat =>
         trim (or_default (adminTeams !! i)
                          ("Team " +:+ String_of_Z (Z.of_nat i + 1))))
      (seq 0 16).

(** ** The bracket graph *)

Record game : Type := {
  id : string;
  day : string;
  timeSlot : string;
  hour : string;
  court : string;
  teamA : option string;
  teamB : option string;
  dependsOn : list string;
  label : option string
}.

Record config : Type := {
  courtName : option string;
  day1MorningStart : option string;
  day1EveningStart : option string;
  day2MorningStart : option string;
  day2EveningStart : option string;
  day3MorningStart : option string;
  day3EveningStart : option string
}.

Record games : Type := {
  day1 : list game;
  day2 : list game;
  day3 : list game;
  all : list game
}.

Definition buildGames (teams : list string) (cfg : config) : result games :=
  let court := or_default (courtName cfg) "Dolphins Court" in
  let gap := 60 in
  let d1MorningStart := or_default (day1MorningStart cfg) "8:00 AM" in
  let d1EveningStart := or_default (day1EveningStart cfg) "4:00 PM" in
  let d2MorningStart := or_default (day2MorningStart cfg) "9:00 AM" in
  let d2EveningStart := or_default (day2EveningStart cfg) "5:00 PM" in
  let d3MorningStart := or_default (day3MorningStart cfg) "10:00 AM" in
  let d3EveningStart := or_default (day3EveningStart cfg) "5:00 PM" in
  day1 ← mapM (fun i : nat =>
      let tA := teams !! (i * 2)%nat in
      let tB := teams !! (i * 2 + 1)%nat in
      let slot := if (i <? 4)%nat then "Morning" else "Evening" in
      let base := if (i <? 4)%nat then d1MorningStart else d1EveningStart in
      let idx := if (i <? 4)%nat then i else (i - 4)%nat in
      hr ← addMinutes base (Z.of_nat idx * gap);
      Ok {| id := "D1G" +:+ String_of_Z (Z.of_nat i + 1);
            day := "Day 1"; timeSlot := slot; hour := hr; court := court;
            teamA := tA; teamB := tB; dependsOn := []; label := None |})
    (seq 0 8);
  h21 ← addMinutes d2MorningStart (0 * gap);
  h22 ← addMinutes d2MorningStart (1 * gap);
  h23 ← addMinutes d2EveningStart (0 * gap);
  h24 ← addMinutes d2EveningStart (1 * gap);
  let day2 := [
    {| id := "D2G1"; day := "Day 2"; timeSlot := "Morning"; hour := h21;
       court := court; teamA := None; teamB := None;
       dependsOn := ["D1G1"; "D1G2"]; label := None |};
    {| id := "D2G2"; day := "Day 2"; timeSlot := "Morning"; hour := h22;
       court := court; teamA := None; teamB := None;
       dependsOn := ["D1G3"; "D1G4"]; label := None |};
    {| id := "D2G3"; day := "Day 2"; timeSlot := "Evening"; hour := h23;
       court := court; teamA := None; teamB := None;
       dependsOn := ["D1G5"; "D1G6"]; label := None |};
    {| id := "D2G4"; day := "Day 2"; timeSlot := "Evening"; hour := h24;
       court := court; teamA := None; teamB := None;
       dependsOn := ["D1G7"; "D1G8"]; label := None |} ] in
  h31 ← addMinutes d3MorningStart (0 * gap);
  h32 ← addMinutes d3EveningStart (0 * gap);
  h33 ← addMinutes d3EveningStart (1 * gap);
  let day3 := [
    {| id := "D3SF1"; day := "Day 3"; timeSlot := "Morning"; hour := h31;
       court := court; teamA := None; teamB := None;
       dependsOn := ["D2G1"; "D2G2"]; label := Some "Semifinal 1" |};
    {| id := "D3SF2"; day := "Day 3"; timeSlot := "Evening"; hour := h32;
       court := court; teamA := None; teamB := None;
       dependsOn := ["D2G3"; "D2G4"]; label := Some "Semifinal 2" |};
    {| id := "D3F"; day := "Day 3"; timeSlot := "Evening"; hour := h33;
       court := court; teamA := None; teamB := None;
       dependsOn := ["D3SF1"; "D3SF2"]; label := Some "Championship Game" |} ] in
  Ok {| day1 := day1; day2 := day2; day3 := day3;
        all := day1 ++ day2 ++ day3 |}.

(** ** The score ledger *)

Module Score.
Record t : Type := {
  teamA : string;
  teamB : string;
  a : value;
  b : value
}.
End Score.

Record State : Type := { scores : gmap string Score.t }.

(** ** Winner and team resolution *)

Definition getWinner (gameId : string) (state : State) : option string :=
  match scores state !! gameId with
  | None => None
  | Some s =>
      let a := Number (Score.a s) in
      let b := Number (Score.b s) in
      if negb (Number_isFinite a) || negb (Number_isFinite b) then None
      else if num_eq a b then None
      else if num_gt a b then Some (Score.teamA s) else Some (Score.teamB s)
  end.

Record teamPair : Type := { pairA : string; pairB : string }.

Definition resolveTeamsForGame (g : game) (state : State) : teamPair :=
  if truthy_str (teamA g) && truthy_str (teamB g) then
    {| pairA := default "" (teamA g); pairB := default "" (teamB g) |}
  else
    let g1 := dependsOn g !! 0%nat in
    let g2 := dependsOn g !! 1%nat in
    let w1 := if truthy_str g1 then getWinner (default "" g1) state else None in
    let w2 := if truthy_str g2 then getWinner (default "" g2) state else None in
    let tA := if truthy_str w1 then default "" w1
              else if truthy_str g1 then "Winner " +:+ default "" g1 else "TBD" in
    let tB := if truthy_str w2 then default "" w2
              else if truthy_str g2 then "Winner " +:+ default "" g2 else "TBD" in
    {| pairA := tA; pairB := tB |}.

(** ** The day gate *)

Definition isDayComplete (dayGames : list game) (state : State) : bool :=
  forallb (fun g =>
    match scores state !! id g with
    | None => false
    | Some s =>
        let a := Number (Score.a s) in
        let b := Number (Score.b s) in
        Number_isFinite a && Number_isFinite b && num_neq a b
    end) dayGames.

Record lockedDays : Type := { Day1 : bool; Day2 : bool; Day3 : bool }.

Definition computeLockedDays (gs : games) (state : State) : lockedDays :=
  let day1Complete := isDayComplete (day1 gs) state in
  let day2Complete := isDayComplete (day2 gs) state in
  {| Day1 := false; Day2 := negb day1Complete; Day3 := negb day2Complete |}.

(** [lockedDays[d]], read for its truthiness: a day that is no key of the
    object is not locked. *)
Definition locked (l : lockedDays) (d : string) : bool :=
  if String.eqb d "Day 1" then Day1 l
  else if String.eqb d "Day 2" then Day2 l
  else if String.eqb d "Day 3" then Day3 l
  else false.

Definition filterGames (allGames : list game) (dayFilter timeFilter : string)
  : list game :=
  List.filter (fun g =>
    let okDay := String.eqb dayFilter "All" || String.eqb (day g) dayFilter in
    let okTime := String.eqb timeFilter "All" || String.eqb (timeSlot g) timeFilter in
    okDay && okTime) allGames.

(** ** Rendering: its effect on the ledger *)

Definition set_scores (sc : gmap string Score.t) : State := {| scores := sc |}.

(** [renderGames] writes the freshly resolved team names into the record
    of every game it draws and creates the record, with empty entries,
    where there is none. The markup it produces is not modelled. *)
Definition renderGames (gs : list game) (state : State) : State :=
  fold_left (fun st g =>
    let teams := resolveTeamsForGame g st in
    match scores st !! id g with
    | None =>
        set_scores (<[id g := {| Score.teamA := pairA teams;
                                 Score.teamB := pairB teams;
                                 Score.a := Str ""; Score.b := Str "" |}]>
                      (scores st))
    | Some s =>
        set_scores (<[id g := {| Score.teamA := pairA teams;
                                 Score.teamB := pairB teams;
                                 Score.a := Score.a s; Score.b := Score.b s |}]>
                      (scores st))
    end) gs state.

(** ** The local variant: scores kept in [localStorage] *)

Module Local.

(** The page: the stored item under [STORAGE_KEY] (represented by the
    state it serializes), the in-memory state, the bracket built at start
    and the two filter selectors. *)
Record app : Type := {
  localStorage : option State;
  state : State;
  bracket : games;
  dayFilter : string;
  timeFilter : string
}.

Definition loadState (stored : option State) : State :=
  match stored with
  | None => set_scores ∅
  | Some st => st
  end.

Definition render (ap : app) : app :=
  let filtered := filterGames (all (bracket ap)) (dayFilter ap) (timeFilter ap) in
  let st := renderGames filtered (state ap) in
  {| localStorage := Some st; state := st; bracket := bracket ap;
     dayFilter := dayFilter ap; timeFilter := timeFilter ap |}.

(** The lock state that [render] computes before it draws. *)
Definition render_locks (ap : app) : lockedDays :=
  computeLockedDays (bracket ap) (state ap).

(** The reset button, up to its call of [render]: the stored item is
    removed and the in-memory ledger replaced by the freshly loaded one. *)
Definition resetScores_clear (ap : app) : app :=
  let fresh := loadState None in
  {| localStorage := None; state := set_scores (scores fresh);
     bracket := bracket ap;
     dayFilter := dayFilter ap; timeFilter := timeFilter ap |}.

Definition resetScores_click (ap : app) : app :=
  render (resetScores_clear ap).

End Local.

(** ** The remote variant: editing a score *)

Inductive side : Type := SideA | SideB.

Definition digits_only (s : string) : string :=
  string_of_list_ascii (List.filter is_digit (list_ascii_of_string s)).

(** [v !== ""]. *)
Definition not_empty_string (v : value) : bool :=
  match v with
  | Str s => negb (String.eqb s "")
  | _ => true
  end.

Record saveCall : Type := { save_gameId : string; save_a : number; save_b : number }.

Record inputOutcome : Type := {
  after : State;
  rerender_only : bool;
  saved : option saveCall
}.

(** The [input] listener of the remote variant, up to and including its
    decision to call [apiSaveScore]: the state at that point and the call
    decided. The whole listener, with the handling of the response and the
    closing [render], is [Remote.input] below. [raw] is the text of the
    edited field. *)
Definition scoreInput (gs : games) (canEdit : bool) (state : State)
    (gameId : string) (sd : side) (raw : string) : inputOutcome :=
  if negb canEdit then
    {| after := state; rerender_only := true; saved := None |}
  else
    let val := digits_only raw in
    match List.find (fun g => String.eqb (id g) gameId) (all gs) with
    | None => {| after := state; rerender_only := false; saved := None |}
    | Some g =>
        if locked (computeLockedDays gs state) (day g) then
          {| after := state; rerender_only := true; saved := None |}
        else
          let teamsNow := resolveTeamsForGame g state in
          let s0 :=
            match scores state !! gameId with
            | Some s => s
            | None => {| Score.teamA := pairA teamsNow;
                         Score.teamB := pairB teamsNow;
                         Score.a := Str ""; Score.b := Str "" |}
            end in
          let state1 := set_scores (<[gameId := s0]> (scores state)) in
          let teamsNow := resolveTeamsForGame g state1 in
          let s1 :=
            match sd with
            | SideA => {| Score.teamA := pairA teamsNow;
                          Score.teamB := pairB teamsNow;
                          Score.a := Str val; Score.b := Score.b s0 |}
            | SideB => {| Score.teamA := pairA teamsNow;
                          Score.teamB := pairB teamsNow;
                          Score.a := Score.a s0; Score.b := Str val |}
            end in
          let state2 := set_scores (<[gameId := s1]> (scores state)) in
          let aVal := Score.a s1 in
          let bVal := Score.b s1 in
          {| after := state2; rerender_only := false;
             saved :=
               if not_empty_string aVal && not_empty_string bVal
                  && num_neq (Number aVal) (Number bVal)
               then Some {| save_gameId := gameId;
                            save_a := Number aVal; save_b := Number bVal |}
               else None |}
    end.

(** ** The score endpoint *)

Module Api.

(** What the endpoint is given by its collaborators: the identity
    service, the allow list of the deployment and the [scores] table. *)
Record backend : Type := {
  getUser : string -> option string;
  ALLOWLIST : list string;
  select_scores : string + list (string * value * value);
  upsert_error : option string
}.

Record request : Type := {
  method : string;
  authorization : option string;
  gameId : value;
  a : value;
  b : value
}.

Inductive response : Type :=
  | Json (status : Z) (error : string)
  | JsonScores (scores : gmap string (value * value)) (canEdit : bool)
  | JsonOk
  | MethodNotAllowed.

Record upsertRow : Type := { game_id : value; row_a : number; row_b : number }.

(** Truthiness of a value. *)
Definition truthy (v : value) : bool :=
  match v with
  | Undefined | Null => false
  | Bool b => b
  | Num n =>
      match n with
      | S754_zero _ | S754_nan => false
      | _ => true
      end
  | Str s => negb (String.eqb s "")
  end.

Definition header (req : request) : string := default "" (authorization req).

Definition after_bearer (auth : string) : string :=
  trim (string_of_list_ascii (drop 7 (list_ascii_of_string auth))).

Definition getBearerToken (req : request) : string :=
  let auth := header req in
  if negb (String.prefix "Bearer " auth) then "" else after_bearer auth.

Definition includes (l : list string) (x : string) : bool :=
  existsb (String.eqb x) l.

Definition canEditFromRequest (be : backend) (req : request) : bool :=
  let token := getBearerToken req in
  if String.eqb token "" then false
  else match getUser be token with
       | None => false
       | Some uid => includes (ALLOWLIST be) uid
       end.

(** The reply of [handler] and the row it hands to [upsert], if any. The
    reply to a GET carries the own properties of the object [map]: an
    assignment under the key [__proto__] sets the prototype of the object
    and adds no property, so that a row of that id is not in the reply. *)
Definition handler (be : backend) (req : request)
  : response * option upsertRow :=
  if String.eqb (method req) "GET" then
    match select_scores be with
    | inl msg => (Json 500 msg, None)
    | inr data =>
        let map := fold_left (fun m '(gid, ra, rb) =>
                     if String.eqb gid "__proto__" then m
                     else <[gid := (ra, rb)]> m) data ∅ in
        (JsonScores map (canEditFromRequest be req), None)
    end
  else if String.eqb (method req) "POST" then
    let auth := header req in
    if negb (String.prefix "Bearer " auth) then (Json 401 "Missing token", None)
    else
      match getUser be (after_bearer auth) with
      | None => (Json 401 "Invalid token", None)
      | Some userId =>
          if negb (includes (ALLOWLIST be) userId) then (Json 403 "Not allowed", None)
          else if negb (truthy (gameId req)) then (Json 400 "Missing gameId", None)
          else
            let aNum := Number (a req) in
            let bNum := Number (b req) in
            if negb (Number_isFinite aNum) || negb (Number_isFinite bNum)
            then (Json 400 "Scores must be numbers", None)
            else if num_eq aNum bNum then (Json 400 "No ties allowed", None)
            else
              let row := {| game_id := gameId req; row_a := aNum; row_b := bNum |} in
              match upsert_error be with
              | Some msg => (Json 500 msg, Some row)
              | None => (JsonOk, Some row)
              end
      end
  else (MethodNotAllowed, None).

End Api.

(** ** The Day-3 bracket view *)

(** The names [renderBracket] shows for the final: the winners of the two
    semifinals, or their placeholders. *)
Definition finalTeams (state : State) : teamPair :=
  let sf1Winner := or_default (getWinner "D3SF1" state) "TBD" in
  let sf2Winner := or_default (getWinner "D3SF2" state) "TBD" in
  {| pairA := if negb (String.eqb sf1Winner "TBD") then sf1Winner
              else "Winner D3SF1";
     pairB := if negb (String.eqb sf2Winner "TBD") then sf2Winner
              else "Winner D3SF2" |}.

(** ** The local variant: editing a score *)

(** The lookup object that [initSchedule] fills from [games.all]: its own
    properties. The listener below reads it under the id of an input that
    the page drew, the id of a game, which is none of the names an object
    inherits. *)
Definition gamesById (gs : games) : gmap string game :=
  fold_left (fun m g => <[id g := g]> m) (all gs) ∅.

Module LocalInput.

(** The [input] listener of the local variant: the digits of the typed
    text are stored on the edited side unless the id is unknown or the day
    of the game is locked; the state is saved and the page drawn again. *)
Definition scoreInput (ap : Local.app) (gameId : string) (sd : side)
    (raw : string) : Local.app :=
  let val := digits_only raw in
  match gamesById (Local.bracket ap) !! gameId with
  | None => ap
  | Some g =>
      let state := Local.state ap in
      if locked (computeLockedDays (Local.bracket ap) state) (day g) then
        Local.render ap
      else
        let s0 :=
          match scores state !! gameId with
          | Some s => s
          | None =>
              let teams := resolveTeamsForGame g state in
              {| Score.teamA := pairA teams; Score.teamB := pairB teams;
                 Score.a := Str ""; Score.b := Str "" |}
          end in
        let s1 :=
          match sd with
          | SideA => {| Score.teamA := Score.teamA s0;
                        Score.teamB := Score.teamB s0;
                        Score.a := Str val; Score.b := Score.b s0 |}
          | SideB => {| Score.teamA := Score.teamA s0;
                        Score.teamB := Score.teamB s0;
                        Score.a := Score.a s0; Score.b := Str val |}
          end in
        let state1 := set_scores (<[gameId := s1]> (scores state)) in
        let teams := resolveTeamsForGame g state1 in
        let s2 := {| Score.teamA := pairA teams; Score.teamB := pairB teams;
                     Score.a := Score.a s1; Score.b := Score.b s1 |} in
        let state2 := set_scores (<[gameId := s2]> (scores state)) in
        Local.render {| Local.localStorage := Some state2;
                        Local.state := state2;
                        Local.bracket := Local.bracket ap;
                        Local.dayFilter := Local.dayFilter ap;
                        Local.timeFilter := Local.timeFilter ap |}
  end.

End LocalInput.

(** ** The remote variant: loading the scores *)





(** ** The remote variant: the page and its [input] listener *)

Module Remote.

(** The page: the in-memory state, the edit flag, the bracket built at
    start and the two filter selectors. *)
Record app : Type := {
  state : State;
  canEdit : bool;
  bracket : games;
  dayFilter : string;
  timeFilter : string
}.

Definition with_state (ap : app) (st : State) (edit : bool) : app :=
  {| state := st; canEdit := edit; bracket := bracket ap;
     dayFilter := dayFilter ap; timeFilter := timeFilter ap |}.

(** [render], for what it does to the page: [renderGames] on the games that
    pass the two filters. The markup, that of [renderBracket] too, is not
    modelled. *)
Definition render (ap : app) : app :=
  let filtered := filterGames (all (bracket ap)) (dayFilter ap) (timeFilter ap) in
  with_state ap (renderGames filtered (state ap)) (canEdit ap).



End Remote.

(** ** Escaping *)

Definition escape_char (c : ascii) : string :=
  if Ascii.eqb c "&" then "&amp;"
  else if Ascii.eqb c "<" then "&lt;"
  else if Ascii.eqb c ">" then "&gt;"
  else if Ascii.eqb c "034" then "&quot;"
  else if Ascii.eqb c "'" then "&#39;"
  else String c "".

Fixpoint escapeHtml (s : string) : string :=
  match s with
  | EmptyString => ""
  | String c r => escape_char c +:+ escapeHtml r
  end.

Fixpoint escapeAttr (s : string) : string :=
  match s with
  | EmptyString => ""
  | String c r =>
      (if Ascii.eqb c "034" then "&quot;" else String c "") +:+ escapeAttr r
  end.

(** * Vocabulary of the properties *)

(** ** The bracket *)

Definition day1_ids : list string :=
  ["D1G1"; "D1G2"; "D1G3"; "D1G4"; "D1G5"; "D1G6"; "D1G7"; "D1G8"].
Definition day2_ids : list string := ["D2G1"; "D2G2"; "D2G3"; "D2G4"].
Definition day3_ids : list string := ["D3SF1"; "D3SF2"; "D3F"].

(** The fixed dependency graph: id, day and the two games a game waits for. *)
Definition topology : list (string * string * list string) :=
  [ ("D1G1", "Day 1", []); ("D1G2", "Day 1", []);
    ("D1G3", "Day 1", []); ("D1G4", "Day 1", []);
    ("D1G5", "Day 1", []); ("D1G6", "Day 1", []);
    ("D1G7", "Day 1", []); ("D1G8", "Day 1", []);
    ("D2G1", "Day 2", ["D1G1"; "D1G2"]);
    ("D2G2", "Day 2", ["D1G3"; "D1G4"]);
    ("D2G3", "Day 2", ["D1G5"; "D1G6"]);
    ("D2G4", "Day 2", ["D1G7"; "D1G8"]);
    ("D3SF1", "Day 3", ["D2G1"; "D2G2"]);
    ("D3SF2", "Day 3", ["D2G3"; "D2G4"]);
    ("D3F", "Day 3", ["D3SF1"; "D3SF2"]) ].

Definition node (g : game) : string * string * list string :=
  (id g, day g, dependsOn g).

Definition seeds (teams : list string) : list (option string * option string) :=
  map (fun i : nat => (teams !! (i * 2)%nat, teams !! (i * 2 + 1)%nat)) (seq 0 8).

(** The shape of every bracket that [buildGames] returns. *)
Record bracket_shape (teams : list string) (gs : games) : Prop := {
  shape_all : all gs = day1 gs ++ day2 gs ++ day3 gs;
  shape_nodes : map node (all gs) = topology;
  shape_day1 : map id (day1 gs) = day1_ids;
  shape_day2 : map id (day2 gs) = day2_ids;
  shape_day3 : map id (day3 gs) = day3_ids;
  shape_seeds : map (fun g => (teamA g, teamB g)) (day1 gs) = seeds teams;
  shape_day1_deps : Forall (fun g => dependsOn g = []) (day1 gs);
  shape_labels : map label (all gs) =
    replicate 12 None ++
    [Some "Semifinal 1"; Some "Semifinal 2"; Some "Championship Game"]
}.

(** The six start times that [buildGames] reads, defaults filled in. *)
Definition start_times (cfg : config) : list string :=
  [ or_default (day1MorningStart cfg) "8:00 AM";
    or_default (day1EveningStart cfg) "4:00 PM";
    or_default (day2MorningStart cfg) "9:00 AM";
    or_default (day2EveningStart cfg) "5:00 PM";
    or_default (day3MorningStart cfg) "10:00 AM";
    or_default (day3EveningStart cfg) "5:00 PM" ].

Definition parses (s : string) : Prop := exists t, parseTime12h s = Ok t.

(** ** Records and the gate *)

(** A score record decides its game: both entries coerce to finite
    numbers and the two numbers differ. *)
Definition decided (s : Score.t) : Prop :=
  Number_isFinite (Number (Score.a s)) = true /\
  Number_isFinite (Number (Score.b s)) = true /\
  num_eq (Number (Score.a s)) (Number (Score.b s)) = false.

(** A game is complete: its score record exists and decides it. *)
Definition complete (gameId : string) (state : State) : Prop :=
  exists s, scores state !! gameId = Some s /\ decided s.

Definition open (isLocked : bool) : Prop := isLocked = false.
Definition is_locked (isLocked : bool) : Prop := isLocked = true.

(** The claim C4 as the specification words it: an existing Day-1 record
    that does not decide its game locks Day 2 and Day 3. *)
Definition undecided_day1_locks_all (gs : games) : Prop :=
  forall (state : State) (gameId : string) (s : Score.t),
    gameId ∈ day1_ids ->
    scores state !! gameId = Some s ->
    ~ decided s ->
    is_locked (Day2 (computeLockedDays gs state)) /\
    is_locked (Day3 (computeLockedDays gs state)) /\
    getWinner gameId state = None.

Definition blank_entries (s : Score.t) : Prop :=
  Score.a s = Str "" /\ Score.b s = Str "".

Definition all_blank (state : State) : Prop :=
  forall gameId s, scores state !! gameId = Some s -> blank_entries s.

(** ** Submissions *)

Definition non_negative (n : number) : bool :=
  match n with
  | S754_zero _ => true
  | S754_finite s _ _ | S754_infinity s => negb s
  | S754_nan => false
  end.





(** The caller of a POST is let through to the validation of the body. *)
Definition authorized (be : Api.backend) (req : Api.request) : Prop :=
  Api.method req = "POST" /\
  String.prefix "Bearer " (Api.header req) = true /\
  (exists userId,
     Api.getUser be (Api.after_bearer (Api.header req)) = Some userId /\
     Api.includes (Api.ALLOWLIST be) userId = true) /\
  Api.truthy (Api.gameId req) = true.

(** ** Clock texts *)

Definition all_space (l : list ascii) : Prop :=
  Forall (fun c => is_space c = true) l.
Definition all_digit (l : list ascii) : Prop :=
  Forall (fun c => is_digit c = true) l.

(** [AM] or [PM] in any mix of cases. *)
Definition is_meridiem (ap : list ascii) : bool :=
  match ap with
  | [x; y] =>
      (Ascii.eqb (upper x) "A" || Ascii.eqb (upper x) "P")
      && Ascii.eqb (upper y) "M"
  | _ => false
  end.

(** The texts the pattern of [parseTime12h] matches once trimmed: one or
    two digits, a colon, two digits, any whitespace, a meridiem; whitespace
    may surround the whole. *)
Definition clock_text (l hh mm ap : list ascii) : Prop :=
  exists w1 w2 w3 : list ascii,
    l = w1 ++ (hh ++ ":"%char :: mm ++ w2 ++ ap) ++ w3 /\
    all_space w1 /\ all_space w2 /\ all_space w3 /\
    (length hh = 1%nat \/ length hh = 2%nat) /\ all_digit hh /\
    length mm = 2%nat /\ all_digit mm /\
    is_meridiem ap = true.

(** The hour on the 24-hour clock: [PM] adds 12 except to 12, and 12 [AM]
    is 0. *)
Definition to24 (h0 : Z) (ap : list ascii) : Z :=
  match ap with
  | x :: _ =>
      if Ascii.eqb (upper x) "P"
      then (if h0 =? 12 then 12 else h0 + 12)
      else (if h0 =? 12 then 0 else h0)
  | [] => h0
  end.

Definition chars (s : string) : list ascii := list_ascii_of_string s.

(** The claim C7 in its particular: a text of the form [H:MM AM|PM] whose
    hour is not between 1 and 12 or whose minute exceeds 59 is refused. *)
Definition rejects_out_of_range : Prop :=
  forall (hour minute : Z) (ap : string),
    ap = "AM" \/ ap = "PM" ->
    0 <= hour < 100 -> 0 <= minute < 100 ->
    ~ (1 <= hour <= 12 /\ minute <= 59) ->
    exists e, parseTime12h (String_of_Z hour +:+ ":" +:+ pad2 minute
                              +:+ " " +:+ ap) = Throw e.

(** ** Further vocabulary *)

(** The text that [formatTime12h] produces is read back by [parseTime12h]
    as the same hour and minute. *)
Definition reads_back (h24 m : Z) : bool :=
  match parseTime12h (formatTime12h h24 m) with
  | Ok t => (h t =? h24) && (min t =? m)
  | Throw _ => false
  end.


(** The text of [formatTime12h h24 m] shows an hour from 1 to 12 that agrees
    with [h24] modulo 12, a colon, the minute on two digits, one space and
    the meridiem in capitals. *)
Definition displays (h24 m : Z) : bool :=
  match time_regex (chars (formatTime12h h24 m)) with
  | Some (hh, mm, ap) =>
      bool_decide (chars (formatTime12h h24 m)
                   = hh ++ ":"%char :: mm ++ " "%char :: ap)
      && (1 <=? parseInt10 hh) && (parseInt10 hh <=? 12)
      && (parseInt10 hh mod 12 =? h24 mod 12)
      && (parseInt10 mm =? m)
      && bool_decide (ap = chars (if 12 <=? h24 then "PM" else "AM"))
  | None => false
  end.

(** The first text of a list that [parseTime12h] refuses. *)
Fixpoint first_bad (l : list string) : option string :=
  match l with
  | [] => None
  | s :: r =>
      match parseTime12h s with
      | Ok _ => first_bad r
      | Throw _ => Some s
      end
  end.

(** A game passes the two filters of the view. *)
Definition shown (dayFilter timeFilter : string) (g : game) : bool :=
  (String.eqb dayFilter "All" || String.eqb (day g) dayFilter)
  && (String.eqb timeFilter "All" || String.eqb (timeSlot g) timeFilter).


(** The same record seen from the other bench: sides exchanged. *)
Definition mirror (s : Score.t) : Score.t :=
  {| Score.teamA := Score.teamB s; Score.teamB := Score.teamA s;
     Score.a := Score.b s; Score.b := Score.a s |}.

(** What a derived game shows for a dependency: the winner's stored name
    if there is one and it is not empty, else the placeholder. *)
Definition advanced (dep : string) (state : State) : string :=
  match getWinner dep state with
  | Some w => if String.eqb w "" then "Winner " +:+ dep else w
  | None => "Winner " +:+ dep
  end.

(** The two entries of the record of a game, if it has one. *)
Definition entries (state : State) (gameId : string) : option (value * value) :=
  (fun s => (Score.a s, Score.b s)) <$> scores state !! gameId.

(** The entries a record has after an edit of one side. *)
Definition edited (old : option (value * value)) (sd : side) (val : string)
  : value * value :=
  let '(a0, b0) := default (Str "", Str "") old in
  match sd with
  | SideA => (Str val, b0)
  | SideB => (a0, Str val)
  end.





(** A character that cannot open or close a tag or an attribute value. *)
Definition inert (c : ascii) : bool :=
  negb (Ascii.eqb c "<" || Ascii.eqb c ">" || Ascii.eqb c "034"
        || Ascii.eqb c "'").

Definition plain (c : ascii) : bool := inert c && negb (Ascii.eqb c "&").

(** The replies by which the endpoint turns a POST away before it looks at
    the scores. *)
Definition refusals : list Api.response :=
  [ Api.Json 401 "Missing token"; Api.Json 401 "Invalid token";
    Api.Json 403 "Not allowed"; Api.Json 400 "Missing gameId" ].

Definition row_key (r : string * value * value) : string := fst (fst r).

(** A text that neither starts nor ends with whitespace. *)
Definition trimmed (l : list ascii) : Prop :=
  match l with
  | [] => True
  | c :: _ => is_space c = false
  end /\
  match rev l with
  | [] => True
  | d :: _ => is_space d = false
  end.

(** The list of names [getTeamsFromAdmin] reads: the override if it is an
    array, else the global list if it is one, else none. *)
Definition admin_list (teamsOverride TOURNAMENT_TEAMS : option (list string))
  : list string :=
  match teamsOverride, TOURNAMENT_TEAMS with
  | Some l, _ => l
  | None, Some l => l
  | None, None => []
  end.

(** A supplied name that is not made of whitespace only. *)
Definition not_blank (name : string) : Prop :=
  Exists (fun c => is_space c = false) (chars name).

(** The invariant of the shifts of the rounding: the mantissa is not
    negative. *)
Definition shr_nonneg (mrs : shr_record) : Prop := 0 <= shr_m mrs.

(** * Sample inputs *)

(** A ledger with one decided and one tied game, used below. *)
Definition rec (tA tB : string) (a b : value) : Score.t :=
  {| Score.teamA := tA; Score.teamB := tB; Score.a := a; Score.b := b |}.

Definition sample_state : State :=
  set_scores (<["D1G1" := rec "Lakers" "Heat" (Str "10") (Str "3")]>
             (<["D1G2" := rec "Bulls" "Nets" (Str "5") (Str "5")]> ∅)).

Definition default_config : config :=
  {| courtName := None;
     day1MorningStart := None; day1EveningStart := None;
     day2MorningStart := None; day2EveningStart := None;
     day3MorningStart := None; day3EveningStart := None |}.

Definition default_teams : list string := getTeamsFromAdmin None None.

Definition default_games : games :=
  Eval vm_compute in
    match buildGames default_teams default_config with
    | Ok gs => gs
    | Throw _ => {| day1 := []; day2 := []; day3 := []; all := [] |}
    end.

(** Day 1 holds a tie while the four Day-2 games are decided. *)
Definition day2_done_state : State :=
  set_scores (<["D1G1" := rec "Team 1" "Team 2" (Str "5") (Str "5")]>
             (<["D2G1" := rec "Team 1" "Team 3" (Str "2") (Str "1")]>
             (<["D2G2" := rec "Team 5" "Team 7" (Str "2") (Str "1")]>
             (<["D2G3" := rec "Team 9" "Team 11" (Str "2") (Str "1")]>
             (<["D2G4" := rec "Team 13" "Team 15" (Str "2") (Str "1")]> ∅))))).

(** All eight Day-1 games decided, nothing else entered. *)
Definition day1_done_state : State :=
  set_scores (list_to_map
    (map (fun i => (i, rec "A" "B" (Str "7") (Str "4"))) day1_ids)).

Definition half_entered_state : State :=
  set_scores (<["D1G1" := rec "Lakers" "Heat" (Str "") (Str "3")]> ∅).

Definition blank_admin_teams : list string := ["Lakers"; "   "; "Heat"; "Bulls"].

Definition blank_games : games :=
  Eval vm_compute in
    match buildGames (getTeamsFromAdmin (Some blank_admin_teams) None)
                     default_config with
    | Ok gs => gs
    | Throw _ => {| day1 := []; day2 := []; day3 := []; all := [] |}
    end.

Definition blank_game : game :=
  Eval vm_compute in
    match day1 blank_games with
    | g :: _ => g
    | [] => {| id := ""; day := ""; timeSlot := ""; hour := ""; court := "";
               teamA := None; teamB := None; dependsOn := []; label := None |}
    end.

Definition played_app : Local.app :=
  {| Local.localStorage := Some day2_done_state;
     Local.state := day2_done_state;
     Local.bracket := default_games;
     Local.dayFilter := "All";
     Local.timeFilter := "All" |}.


Definition listed_backend : Api.backend :=
  {| Api.getUser := fun _ => None;
     Api.ALLOWLIST := [];
     Api.select_scores :=
       inr [("D1G1", Num (num_of_Z 10), Num (num_of_Z 3));
            ("__proto__", Num (num_of_Z 1), Num (num_of_Z 2))];
     Api.upsert_error := None |}.

Definition get_request : Api.request :=
  {| Api.method := "GET"; Api.authorization := None;
     Api.gameId := Undefined; Api.a := Undefined; Api.b := Undefined |}.

Definition admin_backend : Api.backend :=
  {| Api.getUser := fun token => if String.eqb token "tok" then Some "u1" else None;
     Api.ALLOWLIST := ["u1"];
     Api.select_scores := inr [];
     Api.upsert_error := None |}.

Definition post (gameId a b : value) : Api.request :=
  {| Api.method := "POST"; Api.authorization := Some "Bearer tok";
     Api.gameId := gameId; Api.a := a; Api.b := b |}.

(** * Properties *)

(** ** Comparison of numbers *)

Lemma finite_compare (x y : number) :
  Number_isFinite x = true -> Number_isFinite y = true ->
  exists c, SFcompare x y = Some c.
Proof.
  destruct x, y; simpl; try discriminate; eauto.
Qed.

Lemma SFcompare_antisym (x y : number) (c : comparison) :
  SFcompare x y = Some c -> SFcompare y x = Some (CompOpp c).
Proof.
  destruct x as [sx | sx | | sx mx ex], y as [sy | sy | | sy my ey];
    simpl; try discriminate;
    try (destruct sx; intros [= <-]; reflexivity);
    try (destruct sy; intros [= <-]; reflexivity);
    try (intros [= <-]; reflexivity).
  - destruct sx, sy; intros [= <-]; reflexivity.
  - destruct sx, sy; intros [= <-]; try reflexivity.
    + rewrite (Z.compare_antisym ex ey).
      destruct (ex ?= ey); simpl; try reflexivity.
      rewrite CompOpp_involutive. f_equal.
      exact (Pos.compare_cont_antisym my mx Eq).
    + rewrite (Z.compare_antisym ex ey).
      destruct (ex ?= ey); simpl; try reflexivity.
      f_equal. symmetry. exact (Pos.compare_cont_antisym mx my Eq).
Qed.

(** Two finite numbers that are not equal are ordered one way or the
    other, never both. *)
Lemma num_gt_total (x y : number) :
  Number_isFinite x = true -> Number_isFinite y = true ->
  num_eq x y = false ->
  (num_gt x y = true /\ num_gt y x = false) \/
  (num_gt x y = false /\ num_gt y x = true).
Proof.
  intros Hx Hy Hne.
  destruct (finite_compare x y Hx Hy) as [c Hc].
  pose proof (SFcompare_antisym _ _ _ Hc) as Hc'.
  unfold num_eq, num_gt, SFeqb, SFltb in *.
  rewrite Hc in *. rewrite Hc'.
  destruct c; simpl; try discriminate; auto.
Qed.

Lemma num_eq_sym (x y : number) : num_eq x y = num_eq y x.
Proof.
  unfold num_eq, SFeqb.
  destruct (SFcompare x y) as [c |] eqn:Hxy.
  - rewrite (SFcompare_antisym _ _ _ Hxy). destruct c; reflexivity.
  - destruct (SFcompare y x) as [c |] eqn:Hyx; [| reflexivity].
    apply SFcompare_antisym in Hyx. congruence.
Qed.

Lemma num_gt_not_eq (x y : number) : num_gt x y = true -> num_eq x y = false.
Proof.
  unfold num_gt, num_eq, SFltb, SFeqb.
  destruct (SFcompare y x) as [c |] eqn:Hyx; try discriminate.
  rewrite (SFcompare_antisym _ _ _ Hyx). destruct c; simpl; congruence.
Qed.

(** What exceeds zero is a positive, finite or infinite, number. *)
Lemma gt_zero_not_lt (x : number) :
  num_gt x pos_zero = true -> num_gt pos_zero x = false.
Proof.
  intros H. pose proof (num_gt_not_eq _ _ H) as Hne.
  unfold num_gt, num_eq, SFltb, SFeqb in *.
  destruct (SFcompare pos_zero x) as [c |] eqn:Hc; try discriminate.
  rewrite (SFcompare_antisym _ _ _ Hc) in *.
  destruct c; simpl in *; congruence.
Qed.

Lemma Number_empty : Number (Str "") = pos_zero.
Proof. reflexivity. Qed.

(** ** The winner resolver *)

(** C1. [getWinner] is undecided ([None]) when the ledger has no record for
    the id, when an entry does not coerce to a finite number, and when the two
    entries coerce to equal numbers; otherwise exactly one entry is the
    greater, and the result is the name the record itself stores on that
    side. The result depends on nothing but the record of that id: neither
    on the bracket nor on the records from which the names of a derived
    game are resolved. *)
Theorem getWinner_spec (gameId : string) (state : State) :
  (scores state !! gameId = None -> getWinner gameId state = None) /\
  (forall s : Score.t, scores state !! gameId = Some s ->
     let a := Number (Score.a s) in
     let b := Number (Score.b s) in
     (Number_isFinite a = false \/ Number_isFinite b = false ->
        getWinner gameId state = None) /\
     (num_eq a b = true -> getWinner gameId state = None) /\
     (Number_isFinite a = true -> Number_isFinite b = true ->
      num_eq a b = false ->
        (num_gt a b = true /\
           getWinner gameId state = Some (Score.teamA s)) \/
        (num_gt b a = true /\
           getWinner gameId state = Some (Score.teamB s)))) /\
  (forall state' : State,
     scores state' !! gameId = scores state !! gameId ->
     getWinner gameId state' = getWinner gameId state).
Proof.
  unfold getWinner. split; [| split].
  - intros ->. reflexivity.
  - intros s ->. cbv zeta. split; [| split].
    + intros [-> | ->]; simpl; [reflexivity |].
      rewrite orb_true_r. reflexivity.
    + intros ->.
      destruct (negb _ || negb _); reflexivity.
    + intros Ha Hb Hne. rewrite Ha, Hb, Hne. simpl.
      destruct (num_gt_total _ _ Ha Hb Hne) as [[Hgt _] | [Hngt Hlt]].
      * left. rewrite Hgt. auto.
      * right. rewrite Hngt. auto.
  - intros state' ->. reflexivity.
Qed.

Lemma getWinner_spec_witness :
  getWinner "D1G1" sample_state = Some "Lakers" /\
  getWinner "D1G2" sample_state = None /\
  getWinner "D1G3" sample_state = None.
Proof.
  destruct (getWinner_spec "D1G1" sample_state) as (_ & H1 & _).
  destruct (getWinner_spec "D1G2" sample_state) as (_ & H2 & _).
  destruct (getWinner_spec "D1G3" sample_state) as (H3 & _).
  split; [| split].
  - destruct (H1 _ eq_refl) as (_ & _ & H).
    destruct (H eq_refl eq_refl eq_refl) as [[_ Hw] | [Hgt _]];
      [exact Hw | vm_compute in Hgt; discriminate].
  - destruct (H2 _ eq_refl) as (_ & H & _). exact (H eq_refl).
  - exact (H3 eq_refl).
Defined.

(** ** The bracket graph *)

Lemma bind_Ok {A B : Type} (r : result A) (k : A -> result B) (y : B) :
  (r ≫= k) = Ok y -> exists x, r = Ok x /\ k x = Ok y.
Proof.
  destruct r as [x | e]; [| discriminate]. intros H. exists x. auto.
Qed.

Lemma mapM_cons_Ok {A B : Type} (f : A -> result B) (x : A) (l : list A)
    (ys : list B) :
  mapM f (x :: l) = Ok ys ->
  exists y ys', f x = Ok y /\ mapM f l = Ok ys' /\ ys = y :: ys'.
Proof.
  simpl. intros H.
  apply bind_Ok in H as (y & Hy & H).
  apply bind_Ok in H as (ys' & Hys & H).
  injection H as <-. eauto.
Qed.

Lemma addMinutes_Ok (timeStr : string) (k : Z) (t : clock) :
  parseTime12h timeStr = Ok t ->
  addMinutes timeStr k =
    Ok (formatTime12h (Z.rem ((h t * 60 + min t + k) / 60) 24)
                      (Z.rem (h t * 60 + min t + k) 60)).
Proof. unfold addMinutes. intros ->. reflexivity. Qed.

Ltac bind_inv H :=
  let x := fresh "hr" in
  let Hx := fresh "Hhr" in
  apply bind_Ok in H as (x & Hx & H).

Lemma buildGames_inv (teams : list string) (cfg : config) (gs : games) :
  buildGames teams cfg = Ok gs -> bracket_shape teams gs.
Proof.
  unfold buildGames. cbv zeta. intros H.
  apply bind_Ok in H as (d1 & Hd1 & H).
  do 7 bind_inv H.
  injection H as <-.
  cbn [seq] in Hd1.
  do 8 (apply mapM_cons_Ok in Hd1 as (? & ? & Hg & Hd1 & ->);
        bind_inv Hg; injection Hg as <-).
  injection Hd1 as <-.
  split; try reflexivity.
  repeat constructor.
Qed.

Lemma buildGames_returns (teams : list string) (cfg : config) :
  Forall parses (start_times cfg) -> exists gs, buildGames teams cfg = Ok gs.
Proof.
  unfold start_times. intros H.
  repeat match goal with
         | H : Forall _ (_ :: _) |- _ =>
             let t := fresh "t" in
             let Ht := fresh "Ht" in
             apply Forall_cons in H as [[t Ht] H]
         end.
  unfold buildGames. cbv zeta. cbn [seq mapM].
  repeat (erewrite addMinutes_Ok by eassumption; cbn [mbind result_bind]).
  eexists. reflexivity.
Qed.

Lemma seeds_defined (teams : list string) :
  length teams = 16%nat ->
  Forall (fun p => is_Some (fst p) /\ is_Some (snd p)) (seeds teams).
Proof.
  intros Hlen. unfold seeds. apply Forall_map, Forall_forall.
  intros i Hi. apply elem_of_seq in Hi. simpl.
  split; apply lookup_lt_is_Some; lia.
Qed.

(** C2. For every list of 16 team names and every configuration whose six
    start times parse, [buildGames] returns a bracket of exactly 15 games,
    8 of Day 1, 4 of Day 2 and 3 of Day 3 (two semifinals and the final),
    whose ids, days and dependencies are the fixed [topology], a constant
    in which no team name occurs; the Day-1 games carry the names in
    input order, two by two. *)
Theorem buildGames_fixed_topology (teams : list string) (cfg : config) :
  length teams = 16%nat ->
  Forall parses (start_times cfg) ->
  exists gs : games,
    buildGames teams cfg = Ok gs /\
    length (all gs) = 15%nat /\
    length (day1 gs) = 8%nat /\
    length (day2 gs) = 4%nat /\
    length (day3 gs) = 3%nat /\
    all gs = day1 gs ++ day2 gs ++ day3 gs /\
    map node (all gs) = topology /\
    map label (day3 gs) =
      [Some "Semifinal 1"; Some "Semifinal 2"; Some "Championship Game"] /\
    map (fun g => (teamA g, teamB g)) (day1 gs) = seeds teams /\
    Forall (fun g => is_Some (teamA g) /\ is_Some (teamB g)) (day1 gs).
Proof.
  intros Hlen Hparse.
  destruct (buildGames_returns teams cfg Hparse) as [gs Hgs].
  destruct (buildGames_inv _ _ _ Hgs) as [Hall Hnodes H1 H2 H3 Hseeds _ Hlabels].
  assert (L1 : length (day1 gs) = 8%nat)
    by (rewrite <- (length_map id), H1; reflexivity).
  assert (L2 : length (day2 gs) = 4%nat)
    by (rewrite <- (length_map id), H2; reflexivity).
  assert (L3 : length (day3 gs) = 3%nat)
    by (rewrite <- (length_map id), H3; reflexivity).
  exists gs. repeat split; try assumption.
  - rewrite Hall, !length_app, L1, L2, L3. reflexivity.
  - rewrite Hall, !map_app, app_assoc in Hlabels.
    apply app_inj_2 in Hlabels as [_ Hl]; [exact Hl |].
    rewrite length_map, L3. reflexivity.
  - pose proof (seeds_defined teams Hlen) as Hs.
    rewrite <- Hseeds in Hs. apply Forall_map in Hs. exact Hs.
Qed.

Lemma default_starts_parse : Forall parses (start_times default_config).
Proof. repeat constructor; eexists; reflexivity. Qed.

Lemma buildGames_fixed_topology_witness :
  exists gs : games,
    buildGames default_teams default_config = Ok gs /\
    length (all gs) = 15%nat /\ map node (all gs) = topology.
Proof.
  destruct (buildGames_fixed_topology default_teams default_config
              eq_refl default_starts_parse)
    as (gs & Hgs & Hlen & _ & _ & _ & _ & Hnodes & _).
  exists gs. auto.
Defined.

(** ** The day gate *)

Lemma isDayComplete_iff (dayGames : list game) (state : State) :
  isDayComplete dayGames state = true <->
  forall gameId, gameId ∈ map id dayGames -> complete gameId state.
Proof.
  unfold isDayComplete. rewrite forallb_forall. split.
  - intros H gid Hin. apply list_elem_of_fmap in Hin as (g & -> & Hg).
    apply list_elem_of_In in Hg. specialize (H g Hg).
    destruct (scores state !! id g) as [s |] eqn:Hs; [| discriminate].
    exists s. split; [exact Hs |].
    apply andb_prop in H as [H Hne]. apply andb_prop in H as [Ha Hb].
    unfold num_neq in Hne. apply negb_true_iff in Hne.
    split; [| split]; assumption.
  - intros H g Hg. apply list_elem_of_In in Hg.
    destruct (H (id g)) as (s & -> & Ha & Hb & Hne).
    { apply list_elem_of_fmap. eauto. }
    unfold num_neq, num_eq in *. rewrite Ha, Hb, Hne. reflexivity.
Qed.

Lemma isDayComplete_false (dayGames : list game) (state : State) (gameId : string) :
  gameId ∈ map id dayGames -> ~ complete gameId state ->
  isDayComplete dayGames state = false.
Proof.
  intros Hin Hn. apply not_true_is_false. intros H.
  apply Hn. exact (proj1 (isDayComplete_iff _ _) H _ Hin).
Qed.

Lemma Day2_open_iff (teams : list string) (cfg : config) (gs : games)
    (state : State) :
  buildGames teams cfg = Ok gs ->
  open (Day2 (computeLockedDays gs state)) <->
  forall gameId, gameId ∈ day1_ids -> complete gameId state.
Proof.
  intros Hgs. destruct (buildGames_inv _ _ _ Hgs) as [_ _ H1 _ _ _ _ _].
  unfold open, computeLockedDays. simpl.
  rewrite negb_false_iff, isDayComplete_iff, H1. reflexivity.
Qed.

Lemma Day3_open_iff (teams : list string) (cfg : config) (gs : games)
    (state : State) :
  buildGames teams cfg = Ok gs ->
  open (Day3 (computeLockedDays gs state)) <->
  forall gameId, gameId ∈ day2_ids -> complete gameId state.
Proof.
  intros Hgs. destruct (buildGames_inv _ _ _ Hgs) as [_ _ _ H2 _ _ _ _].
  unfold open, computeLockedDays. simpl.
  rewrite negb_false_iff, isDayComplete_iff, H2. reflexivity.
Qed.

(** C3. On the bracket that [buildGames] returns and for every ledger, Day 1
    is never locked; Day 2 is open exactly when each of the 8 Day-1 games is
    complete; Day 3 is open exactly when each of the 4 Day-2 games is
    complete. A game is complete when its record exists and its two entries
    coerce to finite numbers that are not equal. *)
Theorem day_gate (teams : list string) (cfg : config) (gs : games)
    (state : State) :
  buildGames teams cfg = Ok gs ->
  map id (day1 gs) = day1_ids /\ map id (day2 gs) = day2_ids /\
  open (Day1 (computeLockedDays gs state)) /\
  (open (Day2 (computeLockedDays gs state)) <->
     forall gameId, gameId ∈ day1_ids -> complete gameId state) /\
  (open (Day3 (computeLockedDays gs state)) <->
     forall gameId, gameId ∈ day2_ids -> complete gameId state).
Proof.
  intros Hgs. destruct (buildGames_inv _ _ _ Hgs) as [_ _ H1 H2 _ _ _ _].
  split; [exact H1 |]. split; [exact H2 |].
  split; [reflexivity |]. split.
  - exact (Day2_open_iff _ _ _ state Hgs).
  - exact (Day3_open_iff _ _ _ state Hgs).
Qed.

Lemma default_games_built : buildGames default_teams default_config = Ok default_games.
Proof. vm_compute. reflexivity. Qed.

Lemma day_gate_witness :
  open (Day1 (computeLockedDays default_games sample_state)) /\
  (open (Day2 (computeLockedDays default_games sample_state)) <->
     forall gameId, gameId ∈ day1_ids -> complete gameId sample_state).
Proof.
  destruct (day_gate default_teams default_config default_games sample_state
              default_games_built) as (_ & _ & H1 & H2 & _).
  split; assumption.
Defined.

Lemma not_decided_cases (s : Score.t) :
  ~ decided s ->
  Number_isFinite (Number (Score.a s)) = false \/
  Number_isFinite (Number (Score.b s)) = false \/
  num_eq (Number (Score.a s)) (Number (Score.b s)) = true.
Proof.
  unfold decided. intros H.
  destruct (Number_isFinite (Number (Score.a s))); [| auto].
  destruct (Number_isFinite (Number (Score.b s))); [| auto].
  destruct (num_eq _ _); [auto |]. exfalso. apply H. auto.
Qed.

Lemma not_decided_no_winner (gameId : string) (state : State) (s : Score.t) :
  scores state !! gameId = Some s -> ~ decided s ->
  getWinner gameId state = None.
Proof.
  intros Hs Hn. unfold getWinner. rewrite Hs.
  destruct (not_decided_cases s Hn) as [Ha | [Hb | He]].
  - rewrite Ha. reflexivity.
  - rewrite Hb, orb_true_r. reflexivity.
  - rewrite He. destruct (negb _ || negb _); reflexivity.
Qed.

Lemma not_decided_incomplete (gameId : string) (state : State) (s : Score.t) :
  scores state !! gameId = Some s -> ~ decided s -> ~ complete gameId state.
Proof.
  intros Hs Hn (s' & Hs' & Hd). rewrite Hs in Hs'. injection Hs' as <-. auto.
Qed.

(** C4, counterexample. With a tie (5, 5) recorded for the first Day-1 game
    and the four Day-2 games decided, Day 2 is locked but Day 3 is open. *)
Lemma undecided_day1_locks_all_fails :
  computeLockedDays default_games day2_done_state =
    {| Day1 := false; Day2 := true; Day3 := false |} /\
  ~ undecided_day1_locks_all default_games.
Proof.
  assert (E : computeLockedDays default_games day2_done_state =
              {| Day1 := false; Day2 := true; Day3 := false |})
    by (vm_compute; reflexivity).
  split; [exact E |].
  intros H.
  destruct (H day2_done_state "D1G1"
              (rec "Team 1" "Team 2" (Str "5") (Str "5")))
    as (_ & H3 & _).
  - unfold day1_ids. set_solver.
  - reflexivity.
  - intros (_ & _ & Hne). vm_compute in Hne. discriminate.
  - rewrite E in H3. discriminate.
Qed.

(** C4, amended. A record that exists but does not decide its game (a tie,
    or an entry that does not coerce to a finite number) leaves the game
    without a winner and locks the following day: Day 2 when the game is of
    Day 1, Day 3 when it is of Day 2. Day 3 is locked exactly when not every
    Day-2 game is complete. *)
Theorem undecided_locks_next_day (teams : list string) (cfg : config)
    (gs : games) (state : State) (gameId : string) (s : Score.t) :
  buildGames teams cfg = Ok gs ->
  scores state !! gameId = Some s ->
  ~ decided s ->
  getWinner gameId state = None /\
  (gameId ∈ day1_ids -> is_locked (Day2 (computeLockedDays gs state))) /\
  (gameId ∈ day2_ids -> is_locked (Day3 (computeLockedDays gs state))) /\
  (is_locked (Day3 (computeLockedDays gs state)) <->
     ~ forall g2, g2 ∈ day2_ids -> complete g2 state).
Proof.
  intros Hgs Hs Hn.
  destruct (buildGames_inv _ _ _ Hgs) as [_ _ H1 H2 _ _ _ _].
  pose proof (not_decided_incomplete _ _ _ Hs Hn) as Hinc.
  split; [exact (not_decided_no_winner _ _ _ Hs Hn) |].
  unfold is_locked, computeLockedDays; simpl.
  split; [| split].
  - intros Hin. rewrite <- H1 in Hin.
    rewrite (isDayComplete_false _ _ _ Hin Hinc). reflexivity.
  - intros Hin. rewrite <- H2 in Hin.
    rewrite (isDayComplete_false _ _ _ Hin Hinc). reflexivity.
  - rewrite negb_true_iff, <- not_true_iff_false, isDayComplete_iff, H2.
    reflexivity.
Qed.

Lemma undecided_locks_next_day_witness :
  getWinner "D1G2" sample_state = None /\
  is_locked (Day2 (computeLockedDays default_games sample_state)).
Proof.
  destruct (undecided_locks_next_day default_teams default_config
              default_games sample_state "D1G2"
              (rec "Bulls" "Nets" (Str "5") (Str "5")))
    as (Hw & H2 & _).
  - exact default_games_built.
  - reflexivity.
  - intros (_ & _ & Hne). vm_compute in Hne. discriminate.
  - split; [exact Hw |]. apply H2. unfold day1_ids. set_solver.
Defined.

Lemma complete_insert (state : State) (gameId g : string) (s' : Score.t) :
  complete g (set_scores (<[gameId := s']> (scores state))) <->
  if decide (gameId = g) then decided s' else complete g state.
Proof.
  unfold complete. simpl. rewrite lookup_insert.
  destruct (decide (gameId = g)) as [-> | Hne]; [| reflexivity].
  split.
  - intros (s & [= <-] & Hd). exact Hd.
  - intros Hd. eauto.
Qed.

Lemma blank_not_decided (tA tB : string) : ~ decided (rec tA tB (Str "") (Str "")).
Proof. intros (_ & _ & Hne). vm_compute in Hne. discriminate. Qed.

(** C5. While Day 2 is open, every Day-1 game is decided; replacing the
    score pair of any one of them by another pair of finite, unequal values
    keeps Day 2 open; clearing the score of any one of them, be it by
    removing its record or by emptying both of its entries, locks Day 2. *)
Theorem day2_gate_monotone (teams : list string) (cfg : config) (gs : games)
    (state : State) (gameId : string) :
  buildGames teams cfg = Ok gs ->
  open (Day2 (computeLockedDays gs state)) ->
  gameId ∈ day1_ids ->
  complete gameId state /\
  (forall s' : Score.t, decided s' ->
     open (Day2 (computeLockedDays gs
                   (set_scores (<[gameId := s']> (scores state)))))) /\
  is_locked (Day2 (computeLockedDays gs
                     (set_scores (delete gameId (scores state))))) /\
  (forall tA tB : string,
     is_locked (Day2 (computeLockedDays gs
                        (set_scores (<[gameId := rec tA tB (Str "") (Str "")]>
                                       (scores state)))))).
Proof.
  intros Hgs Hopen Hin.
  pose proof (proj1 (Day2_open_iff _ _ _ state Hgs) Hopen) as Hall.
  destruct (buildGames_inv _ _ _ Hgs) as [_ _ H1 _ _ _ _ _].
  split; [exact (Hall _ Hin) |]. split; [| split].
  - intros s' Hd. apply (Day2_open_iff _ _ _ _ Hgs).
    intros g Hg. apply complete_insert.
    destruct (decide (gameId = g)); [exact Hd | exact (Hall _ Hg)].
  - unfold is_locked, computeLockedDays; simpl. apply negb_true_iff.
    apply (isDayComplete_false _ _ gameId); [rewrite H1; exact Hin |].
    intros (s & Hs & _). simpl in Hs. rewrite lookup_delete_eq in Hs.
    discriminate.
  - intros tA tB.
    unfold is_locked, computeLockedDays; simpl. apply negb_true_iff.
    apply (isDayComplete_false _ _ gameId); [rewrite H1; exact Hin |].
    intros Hc. apply complete_insert in Hc.
    rewrite decide_True in Hc by reflexivity.
    exact (blank_not_decided _ _ Hc).
Qed.

Lemma day2_gate_monotone_witness :
  open (Day2 (computeLockedDays default_games
                (set_scores (<["D1G3" := rec "A" "B" (Str "1") (Str "9")]>
                               (scores day1_done_state))))) /\
  is_locked (Day2 (computeLockedDays default_games
                     (set_scores (delete "D1G3" (scores day1_done_state))))).
Proof.
  destruct (day2_gate_monotone default_teams default_config default_games
              day1_done_state "D1G3") as (_ & Hflip & Hclear & _).
  - exact default_games_built.
  - vm_compute. reflexivity.
  - unfold day1_ids. set_solver.
  - split; [| exact Hclear].
    apply Hflip. vm_compute. auto.
Defined.

(** Emptying one entry only is not a clearing in this sense: the empty
    entry reads as 0 and the game stays decided against a non-zero score. *)
Lemma one_entry_emptied_stays_open :
  open (Day2 (computeLockedDays default_games
                (set_scores (<["D1G3" := rec "A" "B" (Str "") (Str "4")]>
                               (scores day1_done_state))))).
Proof. vm_compute. reflexivity. Qed.

(** ** Empty entries *)

(** C9. A record whose entry [a] is the empty string and whose entry [b]
    coerces to a positive finite number resolves to the record's [teamB],
    the empty entry being read as the number 0, and makes its game count as
    complete for the day gate; and the same with the sides exchanged. *)
Theorem empty_entry_reads_as_zero (gameId : string) (state : State)
    (s : Score.t) :
  scores state !! gameId = Some s ->
  Number (Str "") = pos_zero /\
  (Score.a s = Str "" ->
   Number_isFinite (Number (Score.b s)) = true ->
   num_gt (Number (Score.b s)) pos_zero = true ->
     getWinner gameId state = Some (Score.teamB s) /\
     (forall g : game, id g = gameId -> isDayComplete [g] state = true)) /\
  (Score.b s = Str "" ->
   Number_isFinite (Number (Score.a s)) = true ->
   num_gt (Number (Score.a s)) pos_zero = true ->
     getWinner gameId state = Some (Score.teamA s) /\
     (forall g : game, id g = gameId -> isDayComplete [g] state = true)).
Proof.
  intros Hs. split; [reflexivity |]. split.
  - intros Ha Hb Hgt.
    pose proof (num_gt_not_eq _ _ Hgt) as Hne. rewrite num_eq_sym in Hne.
    pose proof (gt_zero_not_lt _ Hgt) as Hngt.
    split.
    + unfold getWinner. rewrite Hs, Ha, Number_empty, Hb, Hne, Hngt.
      reflexivity.
    + intros g <-. unfold isDayComplete, num_neq. simpl.
      rewrite Hs, Ha, Number_empty, Hb. unfold num_eq in Hne.
      rewrite Hne. reflexivity.
  - intros Hb Ha Hgt.
    pose proof (num_gt_not_eq _ _ Hgt) as Hne.
    split.
    + unfold getWinner. rewrite Hs, Hb, Number_empty, Ha, Hne, Hgt.
      reflexivity.
    + intros g <-. unfold isDayComplete, num_neq. simpl.
      rewrite Hs, Hb, Number_empty, Ha. unfold num_eq in Hne.
      rewrite Hne. reflexivity.
Qed.

Lemma empty_entry_reads_as_zero_witness :
  getWinner "D1G1" half_entered_state = Some "Heat".
Proof.
  destruct (empty_entry_reads_as_zero "D1G1" half_entered_state
              (rec "Lakers" "Heat" (Str "") (Str "3")) eq_refl)
    as (_ & H & _).
  exact (proj1 (H eq_refl eq_refl eq_refl)).
Defined.

(** ** Team names *)

Lemma skip_space_all (l : list ascii) :
  Forall (fun c => is_space c = true) l -> skip_space l = [].
Proof.
  induction 1 as [| c l Hc _ IH]; [reflexivity |].
  simpl. rewrite Hc. exact IH.
Qed.

Lemma trim_all_space (s : string) :
  Forall (fun c => is_space c = true) (list_ascii_of_string s) -> trim s = "".
Proof.
  intros H. unfold trim, trim_list. rewrite (skip_space_all _ H). reflexivity.
Qed.

Lemma resolve_unseeded (g : game) (state : State) :
  truthy_str (teamA g) && truthy_str (teamB g) = false ->
  dependsOn g = [] ->
  resolveTeamsForGame g state = {| pairA := "TBD"; pairB := "TBD" |}.
Proof.
  intros Ht Hd. unfold resolveTeamsForGame. rewrite Ht, Hd. reflexivity.
Qed.

(** C10. A name made of whitespace only, supplied at one of the 16 slots of
    the list that [getTeamsFromAdmin] reads, be it the override passed to
    [initSchedule] or the global [window.TOURNAMENT_TEAMS], is not replaced by
    the placeholder: it is trimmed to the empty string. The Day-1 game
    seeded with it has no dependency, fails the test for concrete teams, and
    resolves to "TBD" on both sides. *)
Theorem blank_name_resolves_to_TBD
    (teamsOverride TOURNAMENT_TEAMS : option (list string)) (i : nat)
    (name : string) (cfg : config) (gs : games) (state : State) (g : game) :
  (i < 16)%nat ->
  admin_list teamsOverride TOURNAMENT_TEAMS !! i = Some name ->
  name <> "" ->
  Forall (fun c => is_space c = true) (list_ascii_of_string name) ->
  buildGames (getTeamsFromAdmin teamsOverride TOURNAMENT_TEAMS) cfg = Ok gs ->
  day1 gs !! (i / 2)%nat = Some g ->
  getTeamsFromAdmin teamsOverride TOURNAMENT_TEAMS !! i = Some "" /\
  (teamA g = Some "" \/ teamB g = Some "") /\
  dependsOn g = [] /\
  resolveTeamsForGame g state = {| pairA := "TBD"; pairB := "TBD" |}.
Proof.
  intros Hi Hname Hne Hws Hgs Hg.
  set (teams := getTeamsFromAdmin teamsOverride TOURNAMENT_TEAMS) in *.
  assert (Hti : teams !! i = Some "").
  { unfold teams, getTeamsFromAdmin.
    rewrite list_lookup_fmap, lookup_seq_lt by exact Hi. simpl.
    replace (match teamsOverride with
             | Some l => l
             | None => match TOURNAMENT_TEAMS with Some l => l | None => [] end
             end) with (admin_list teamsOverride TOURNAMENT_TEAMS)
      by (destruct teamsOverride, TOURNAMENT_TEAMS; reflexivity).
    rewrite Hname. unfold or_default. simpl.
    destruct (String.eqb_spec name "") as [-> | _]; [contradiction |].
    simpl. rewrite (trim_all_space _ Hws). reflexivity. }
  destruct (buildGames_inv _ _ _ Hgs) as [_ _ _ _ _ Hseeds Hdeps _].
  assert (Hp : (teamA g, teamB g)
               = (teams !! (i / 2 * 2)%nat, teams !! (i / 2 * 2 + 1)%nat)).
  { apply (f_equal (fun l => l !! (i / 2)%nat)) in Hseeds.
    rewrite list_lookup_fmap, Hg in Hseeds. unfold seeds in Hseeds.
    assert (Hlt : (i / 2 < 8)%nat) by (apply Nat.Div0.div_lt_upper_bound; lia).
    rewrite list_lookup_fmap, lookup_seq_lt in Hseeds by exact Hlt.
    simpl in Hseeds. injection Hseeds as HA HB. rewrite HA, HB. reflexivity. }
  pose proof (f_equal fst Hp) as HA. pose proof (f_equal snd Hp) as HB.
  cbn [fst snd] in HA, HB.
  assert (Hcase : i = (i / 2 * 2)%nat \/ i = (i / 2 * 2 + 1)%nat).
  { pose proof (Nat.div_mod_eq i 2).
    pose proof (Nat.mod_upper_bound i 2). lia. }
  assert (Hblank : teamA g = Some "" \/ teamB g = Some "").
  { destruct Hcase as [E | E]; [left | right].
    - rewrite HA, <- E. exact Hti.
    - rewrite HB, <- E. exact Hti. }
  assert (Hd : dependsOn g = []).
  { rewrite Forall_forall in Hdeps. apply Hdeps.
    apply list_elem_of_lookup. eauto. }
  split; [exact Hti |]. split; [exact Hblank |]. split; [exact Hd |].
  apply resolve_unseeded; [| exact Hd].
  destruct Hblank as [-> | ->]; simpl; [reflexivity | apply andb_false_r].
Qed.

Lemma blank_name_resolves_to_TBD_witness :
  teamA blank_game = Some "Lakers" /\
  teamB blank_game = Some "" /\
  resolveTeamsForGame blank_game sample_state
    = {| pairA := "TBD"; pairB := "TBD" |}.
Proof.
  split; [reflexivity |]. split; [reflexivity |].
  refine (proj2 (proj2 (proj2
    (blank_name_resolves_to_TBD None (Some blank_admin_teams) 1 "   "
       default_config blank_games sample_state blank_game
       _ _ _ _ _ _)))).
  - lia.
  - reflexivity.
  - discriminate.
  - repeat constructor.
  - vm_compute. reflexivity.
  - reflexivity.
Defined.

(** ** Reset *)

Lemma blank_entries_not_decided (s : Score.t) : blank_entries s -> ~ decided s.
Proof.
  intros [Ha Hb] (_ & _ & Hne). rewrite Ha, Hb in Hne.
  vm_compute in Hne. discriminate.
Qed.

Lemma renderGames_all_blank (gs : list game) (state : State) :
  all_blank state -> all_blank (renderGames gs state).
Proof.
  unfold renderGames. revert state.
  induction gs as [| g gs IH]; intros state Hb; [exact Hb |].
  simpl. apply IH. intros gid s.
  destruct (scores state !! id g) as [s0 |] eqn:Hs0; simpl;
    rewrite lookup_insert; destruct (decide (id g = gid)) as [_ | _];
    try (intros [= <-]; split; simpl; try reflexivity);
    try apply Hb.
  - exact (proj1 (Hb _ _ Hs0)).
  - exact (proj2 (Hb _ _ Hs0)).
Qed.

Lemma all_blank_locks (teams : list string) (cfg : config) (gs : games)
    (state : State) :
  buildGames teams cfg = Ok gs -> all_blank state ->
  computeLockedDays gs state = {| Day1 := false; Day2 := true; Day3 := true |}.
Proof.
  intros Hgs Hb.
  destruct (buildGames_inv _ _ _ Hgs) as [_ _ H1 H2 _ _ _ _].
  assert (Hinc : forall gid, ~ complete gid state).
  { intros gid (s & Hs & Hd). exact (blank_entries_not_decided _ (Hb _ _ Hs) Hd). }
  unfold computeLockedDays.
  rewrite (isDayComplete_false (day1 gs) state "D1G1"),
          (isDayComplete_false (day2 gs) state "D2G1"); try apply Hinc.
  - reflexivity.
  - rewrite H2. unfold day2_ids. set_solver.
  - rewrite H1. unfold day1_ids. set_solver.
Qed.

(** C8. The reset button removes the stored item and every score record
    and touches nothing else: the bracket, with its teams and kickoff times,
    and the two filters are as before. The gate that the following render
    computes has Day 1 open and Day 2 and Day 3 locked. Once that render has
    run, the bracket is still the same, the only records are the blank ones
    it creates for the games it draws, and the gate is unchanged. *)
Theorem reset_clears_ledger (teams : list string) (cfg : config)
    (ap : Local.app) :
  buildGames teams cfg = Ok (Local.bracket ap) ->
  let cleared := Local.resetScores_clear ap in
  let final := Local.resetScores_click ap in
  scores (Local.state cleared) = ∅ /\
  Local.localStorage cleared = None /\
  Local.bracket cleared = Local.bracket ap /\
  Local.dayFilter cleared = Local.dayFilter ap /\
  Local.timeFilter cleared = Local.timeFilter ap /\
  Local.render_locks cleared
    = {| Day1 := false; Day2 := true; Day3 := true |} /\
  Local.bracket final = Local.bracket ap /\
  all_blank (Local.state final) /\
  Local.render_locks final
    = {| Day1 := false; Day2 := true; Day3 := true |}.
Proof.
  intros Hgs cleared final.
  assert (Hempty : all_blank (Local.state cleared)).
  { intros gid s Hs. simpl in Hs. rewrite lookup_empty in Hs. discriminate. }
  assert (Hfinal : all_blank (Local.state final))
    by (apply renderGames_all_blank; exact Hempty).
  do 5 (split; [reflexivity |]).
  split; [exact (all_blank_locks _ _ _ _ Hgs Hempty) |].
  split; [reflexivity |].
  split; [exact Hfinal |].
  exact (all_blank_locks teams cfg _ _ Hgs Hfinal).
Qed.

Lemma reset_clears_ledger_witness :
  scores (Local.state (Local.resetScores_clear played_app)) = ∅ /\
  Local.render_locks (Local.resetScores_click played_app)
    = {| Day1 := false; Day2 := true; Day3 := true |}.
Proof.
  destruct (reset_clears_ledger default_teams default_config played_app
              default_games_built)
    as (H1 & _ & _ & _ & _ & _ & _ & _ & H2).
  split; assumption.
Defined.

(** ** Score submission *)


Lemma digits_only_digits (raw : string) :
  Forall (fun c => is_digit c = true)
         (list_ascii_of_string (digits_only raw)).
Proof.
  unfold digits_only. rewrite list_ascii_of_string_of_list_ascii.
  apply Forall_forall. intros c Hc.
  apply list_elem_of_In, filter_In in Hc. tauto.
Qed.



(** ** The clock parser *)

Lemma digit_not_space (c : ascii) : is_digit c = true -> is_space c = false.
Proof. destruct c as [[] [] [] [] [] [] [] []]; vm_compute; congruence. Qed.

Lemma upper_letter_not_space (c : ascii) (u : ascii) :
  Ascii.eqb (upper c) u = true -> is_space u = false /\ is_digit u = false ->
  is_space c = false /\ is_digit c = false.
Proof.
  intros H%Ascii.eqb_eq [Hs Hd]. subst u. revert Hs Hd.
  destruct c as [[] [] [] [] [] [] [] []]; vm_compute; auto.
Qed.

Lemma meridiem_ends (ap : list ascii) :
  is_meridiem ap = true ->
  exists x y, ap = [x; y] /\ is_space x = false /\ is_space y = false.
Proof.
  destruct ap as [| x [| y [| ? ?]]]; try discriminate.
  simpl. intros H. apply andb_prop in H as [Hx Hy].
  exists x, y. split; [reflexivity |]. split.
  - apply orb_prop in Hx as [Hx | Hx];
      apply (upper_letter_not_space _ _ Hx); split; reflexivity.
  - apply (upper_letter_not_space _ _ Hy); split; reflexivity.
Qed.

Lemma skip_space_app (w l : list ascii) :
  all_space w -> skip_space (w ++ l) = skip_space l.
Proof.
  induction 1 as [| c w Hc _ IH]; [reflexivity |].
  simpl. rewrite Hc. exact IH.
Qed.

Lemma skip_space_head (c : ascii) (l : list ascii) :
  is_space c = false -> skip_space (c :: l) = c :: l.
Proof. intros H. simpl. rewrite H. reflexivity. Qed.

Lemma skip_space_split (l : list ascii) :
  exists w, l = w ++ skip_space l /\ all_space w.
Proof.
  induction l as [| c l (w & IH & Hw)].
  - exists []. split; [reflexivity | constructor].
  - simpl. destruct (is_space c) eqn:Hc.
    + exists (c :: w). split; [simpl; congruence | constructor; assumption].
    + exists []. split; [reflexivity | constructor].
Qed.

Lemma all_space_rev (w : list ascii) : all_space w -> all_space (rev w).
Proof.
  unfold all_space. rewrite !Forall_forall. intros H c Hc.
  apply H. apply list_elem_of_In. apply list_elem_of_In, in_rev in Hc.
  exact Hc.
Qed.

(** [trim] only removes whitespace, and only from the two ends. *)
Lemma trim_list_split (l : list ascii) :
  exists w1 w3, l = w1 ++ trim_list l ++ w3 /\ all_space w1 /\ all_space w3.
Proof.
  destruct (skip_space_split l) as (w1 & H1 & Hw1).
  destruct (skip_space_split (rev (skip_space l))) as (w & H & Hw).
  exists w1, (rev w). split; [| split; [exact Hw1 | exact (all_space_rev _ Hw)]].
  unfold trim_list. rewrite <- rev_app_distr, <- H, rev_involutive.
  exact H1.
Qed.

(** A text that starts and ends with a character that is no whitespace is
    what [trim] leaves of it, whatever whitespace surrounds it. *)
Lemma trim_list_core (w1 w3 core : list ascii) (c d : ascii) (mid : list ascii) :
  all_space w1 -> all_space w3 ->
  core = c :: mid ++ [d] -> is_space c = false -> is_space d = false ->
  trim_list (w1 ++ core ++ w3) = core.
Proof.
  intros Hw1 Hw3 -> Hc Hd. unfold trim_list.
  rewrite (skip_space_app _ _ Hw1).
  assert (E1 : skip_space ((c :: mid ++ [d]) ++ w3) = (c :: mid ++ [d]) ++ w3)
    by (simpl; rewrite Hc; reflexivity).
  rewrite E1, rev_app_distr, (skip_space_app _ _ (all_space_rev _ Hw3)).
  assert (E2 : rev (c :: mid ++ [d]) = d :: rev (c :: mid))
    by (rewrite app_comm_cons, rev_app_distr; reflexivity).
  rewrite E2, (skip_space_head _ _ Hd), <- E2. apply rev_involutive.
Qed.

Lemma match_minute_meridiem_sound (l g2 g3 : list ascii) :
  match_minute_meridiem l = Some (g2, g3) ->
  exists w2, l = g2 ++ w2 ++ g3 /\ all_space w2 /\
             length g2 = 2%nat /\ all_digit g2 /\ is_meridiem g3 = true.
Proof.
  destruct l as [| m1 [| m2 t]]; try discriminate. simpl.
  destruct (is_digit m1) eqn:H1; [| discriminate].
  destruct (is_digit m2) eqn:H2; [| discriminate]. simpl.
  destruct (skip_space_split t) as (w2 & Ht & Hw2).
  destruct (skip_space t) as [| x [| y [| ? ?]]]; try discriminate.
  destruct (_ && _) eqn:Hap; [| discriminate].
  intros [= <- <-]. exists w2. rewrite Ht at 1.
  split; [reflexivity |]. split; [exact Hw2 |]. split; [reflexivity |].
  split; [repeat constructor; assumption | exact Hap].
Qed.

Lemma match_minute_meridiem_complete (mm w2 ap : list ascii) :
  length mm = 2%nat -> all_digit mm -> all_space w2 -> is_meridiem ap = true ->
  match_minute_meridiem (mm ++ w2 ++ ap) = Some (mm, ap).
Proof.
  intros Hlen Hmm Hw2 Hap.
  destruct mm as [| m1 [| m2 [| ? ?]]]; try discriminate.
  apply Forall_cons in Hmm as [H1 Hmm]. apply Forall_cons in Hmm as [H2 _].
  destruct (meridiem_ends _ Hap) as (x & y & -> & Hx & _).
  simpl app. unfold match_minute_meridiem.
  rewrite H1, H2, (skip_space_app _ _ Hw2), (skip_space_head _ _ Hx).
  simpl andb at 1. cbv iota.
  simpl in Hap. rewrite Hap. reflexivity.
Qed.

Lemma time_regex_sound (l g1 g2 g3 : list ascii) :
  time_regex l = Some (g1, g2, g3) ->
  exists w2, l = g1 ++ ":"%char :: g2 ++ w2 ++ g3 /\ all_space w2 /\
             (length g1 = 1%nat \/ length g1 = 2%nat) /\ all_digit g1 /\
             length g2 = 2%nat /\ all_digit g2 /\ is_meridiem g3 = true.
Proof.
  destruct l as [| d1 [| c2 r]]; try discriminate. simpl.
  destruct (is_digit d1) eqn:H1; [| discriminate].
  destruct (is_digit c2) eqn:H2.
  - destruct r as [| c3 r']; [discriminate |].
    destruct (Ascii.eqb c3 ":") eqn:H3; [| discriminate].
    apply Ascii.eqb_eq in H3 as ->.
    destruct (match_minute_meridiem r') as [[m a] |] eqn:Hm; [| discriminate].
    intros [= <- <- <-].
    destruct (match_minute_meridiem_sound _ _ _ Hm) as (w2 & -> & ? & ? & ? & ?).
    exists w2. repeat split; auto. repeat constructor; assumption.
  - destruct (Ascii.eqb c2 ":") eqn:H3; [| discriminate].
    apply Ascii.eqb_eq in H3 as ->.
    destruct (match_minute_meridiem r) as [[m a] |] eqn:Hm; [| discriminate].
    intros [= <- <- <-].
    destruct (match_minute_meridiem_sound _ _ _ Hm) as (w2 & -> & ? & ? & ? & ?).
    exists w2. repeat split; auto. repeat constructor; assumption.
Qed.

Lemma time_regex_complete (hh mm w2 ap : list ascii) :
  (length hh = 1%nat \/ length hh = 2%nat) -> all_digit hh ->
  length mm = 2%nat -> all_digit mm -> all_space w2 -> is_meridiem ap = true ->
  time_regex (hh ++ ":"%char :: mm ++ w2 ++ ap) = Some (hh, mm, ap).
Proof.
  intros Hlen Hhh Hlm Hmm Hw2 Hap.
  pose proof (match_minute_meridiem_complete _ _ _ Hlm Hmm Hw2 Hap) as Hm.
  destruct Hlen as [Hlen | Hlen].
  - destruct hh as [| d1 [| ? ?]]; try discriminate.
    apply Forall_cons in Hhh as [H1 _].
    simpl app. unfold time_regex. rewrite H1.
    change (is_digit ":") with false. cbv iota.
    change (Ascii.eqb ":" ":") with true. cbv iota.
    rewrite Hm. reflexivity.
  - destruct hh as [| d1 [| d2 [| ? ?]]]; try discriminate.
    apply Forall_cons in Hhh as [H1 Hhh]. apply Forall_cons in Hhh as [H2 _].
    simpl app. unfold time_regex. rewrite H1, H2.
    change (Ascii.eqb ":" ":") with true. cbv iota.
    rewrite Hm. reflexivity.
Qed.

Lemma clock_text_regex (l hh mm ap : list ascii) :
  clock_text l hh mm ap -> time_regex (trim_list l) = Some (hh, mm, ap).
Proof.
  intros (w1 & w2 & w3 & -> & Hw1 & Hw2 & Hw3 & Hlen & Hhh & Hlm & Hmm & Hap).
  rewrite <- (time_regex_complete hh mm w2 ap) by assumption.
  f_equal.
  destruct (meridiem_ends _ Hap) as (x & y & -> & _ & Hy).
  destruct hh as [| d1 hh']; [destruct Hlen; discriminate |].
  apply (trim_list_core w1 w3 _ d1 y (hh' ++ ":"%char :: mm ++ w2 ++ [x]));
    try assumption.
  - simpl. f_equal. rewrite <- app_assoc. simpl. f_equal. f_equal.
    rewrite <- !app_assoc. reflexivity.
  - apply digit_not_space. apply Forall_cons in Hhh as [H _]. exact H.
Qed.

Lemma parseTime12h_of_regex (str : string) (g1 g2 g3 : list ascii) :
  time_regex (trim_list (chars str)) = Some (g1, g2, g3) ->
  is_meridiem g3 = true ->
  parseTime12h str = Ok {| h := to24 (parseInt10 g1) g3; min := parseInt10 g2 |}.
Proof.
  intros Hre Hap. unfold parseTime12h, trim.
  rewrite list_ascii_of_string_of_list_ascii. fold (chars str). rewrite Hre.
  destruct g3 as [| x [| y [| ? ?]]]; try discriminate.
  simpl in Hap. apply andb_prop in Hap as [Hx Hy].
  apply Ascii.eqb_eq in Hy. simpl map. simpl string_of_list_ascii.
  rewrite Hy. unfold to24.
  apply orb_prop in Hx as [Hx | Hx]; apply Ascii.eqb_eq in Hx; rewrite Hx.
  - change (String.eqb "AM" "PM") with false.
    change (String.eqb "AM" "AM") with true.
    change (Ascii.eqb "A" "P") with false. reflexivity.
  - change (String.eqb "PM" "PM") with true.
    change (String.eqb "PM" "AM") with false.
    change (Ascii.eqb "P" "P") with true. simpl.
    destruct (Z.eqb_spec (parseInt10 g1) 12) as [-> | _]; reflexivity.
Qed.

(** C7, counterexample. The text "13:75 PM" is accepted, as hour 25 and
    minute 75, and so is "0:60 AM". *)
Lemma rejects_out_of_range_fails :
  parseTime12h "13:75 PM" = Ok {| h := 25; min := 75 |} /\
  parseTime12h "0:60 AM" = Ok {| h := 0; min := 60 |} /\
  ~ rejects_out_of_range.
Proof.
  split; [reflexivity |]. split; [reflexivity |].
  intros H. destruct (H 13 75 "PM") as [e He]; try lia; auto.
  vm_compute in He. discriminate.
Qed.

(** C7, amended. [parseTime12h] accepts exactly the texts that consist,
    between optional whitespace at both ends, of one or two digits, a colon,
    two digits, optional whitespace and [AM] or [PM] in any mix of cases;
    on every other input it throws "Bad time format: " followed by the
    input. The hour and the minute are taken as written, the hour moved to
    the 24-hour clock; for an hour from 1 to 12 the result is an hour from 0
    to 23. *)
Theorem parseTime12h_accepts (str : string) :
  (forall hh mm ap, clock_text (chars str) hh mm ap ->
     parseTime12h str
       = Ok {| h := to24 (parseInt10 hh) ap; min := parseInt10 mm |} /\
     (1 <= parseInt10 hh <= 12 -> 0 <= to24 (parseInt10 hh) ap <= 23)) /\
  (forall t, parseTime12h str = Ok t ->
     exists hh mm ap, clock_text (chars str) hh mm ap) /\
  ((forall hh mm ap, ~ clock_text (chars str) hh mm ap) ->
     parseTime12h str = Throw (Error ("Bad time format: " +:+ str))).
Proof.
  assert (Hsound : forall g1 g2 g3,
            time_regex (trim_list (chars str)) = Some (g1, g2, g3) ->
            clock_text (chars str) g1 g2 g3).
  { intros g1 g2 g3 Hre.
    destruct (time_regex_sound _ _ _ _ Hre)
      as (w2 & Hcore & Hw2 & Hlen & Hhh & Hlm & Hmm & Hap).
    destruct (trim_list_split (chars str)) as (w1 & w3 & Hl & Hw1 & Hw3).
    exists w1, w2, w3. rewrite <- Hcore. repeat split; assumption. }
  split; [| split].
  - intros hh mm ap Hct. split.
    + apply parseTime12h_of_regex; [exact (clock_text_regex _ _ _ _ Hct) |].
      destruct Hct as (? & ? & ? & _ & _ & _ & _ & _ & _ & _ & _ & Hap).
      exact Hap.
    + intros Hr. unfold to24. destruct ap as [| x ?]; [lia |].
      destruct (Ascii.eqb (upper x) "P");
        destruct (Z.eqb_spec (parseInt10 hh) 12); lia.
  - intros t. unfold parseTime12h, trim.
    rewrite list_ascii_of_string_of_list_ascii. fold (chars str).
    destruct (time_regex (trim_list (chars str))) as [[[g1 g2] g3] |] eqn:Hre;
      [| discriminate].
    intros _. exists g1, g2, g3. exact (Hsound _ _ _ eq_refl).
  - intros Hno. unfold parseTime12h, trim.
    rewrite list_ascii_of_string_of_list_ascii. fold (chars str).
    destruct (time_regex (trim_list (chars str))) as [[[g1 g2] g3] |] eqn:Hre;
      [| reflexivity].
    exfalso. exact (Hno _ _ _ (Hsound _ _ _ eq_refl)).
Qed.

Lemma parseTime12h_accepts_witness :
  parseTime12h " 9:05  pm " = Ok {| h := 21; min := 5 |}.
Proof.
  refine (proj1 (proj1 (parseTime12h_accepts " 9:05  pm ")
    (chars "9") (chars "05") (chars "pm") _)).
  exists (chars " "), (chars "  "), (chars " ").
  split; [reflexivity |].
  repeat split; try reflexivity; try (repeat constructor); auto.
Defined.

(** * Further properties *)

(** ** Time arithmetic *)

Lemma Z_range_forallb (n : nat) (P : Z -> bool) :
  forallb P (map Z.of_nat (seq 0 n)) = true ->
  forall z, 0 <= z < Z.of_nat n -> P z = true.
Proof.
  intros H z Hz. rewrite forallb_forall in H. apply H.
  rewrite <- (Z2Nat.id z) by lia. apply in_map, in_seq. lia.
Qed.

Lemma formatTime12h_reads_back (h24 m : Z) :
  0 <= h24 < 24 -> 0 <= m < 60 ->
  parseTime12h (formatTime12h h24 m) = Ok {| h := h24; min := m |}.
Proof.
  intros Hh Hm.
  assert (E : forallb (fun x => forallb (reads_back x) (map Z.of_nat (seq 0 60)))
                      (map Z.of_nat (seq 0 24)) = true)
    by (vm_compute; reflexivity).
  pose proof (Z_range_forallb _ _ (Z_range_forallb _ _ E h24 Hh) m Hm) as H.
  unfold reads_back in H.
  destruct (parseTime12h (formatTime12h h24 m)) as [[h1 m1] |]; [| discriminate].
  apply andb_prop in H as [H1 H2]. simpl in H1, H2.
  apply Z.eqb_eq in H1, H2. subst. reflexivity.
Qed.

Lemma digit_val_bound (c : ascii) : is_digit c = true -> (digit_val c <= 9)%N.
Proof.
  unfold is_digit, digit_val. intros H.
  apply andb_prop in H as [H1 H2]. apply N.leb_le in H1, H2. lia.
Qed.

Lemma parseInt10_bound (l : list ascii) :
  (length l <= 2)%nat -> all_digit l -> 0 <= parseInt10 l <= 99.
Proof.
  intros Hlen Hd. unfold parseInt10, digits_value.
  destruct l as [| c1 [| c2 [| ? ?]]]; simpl in *; try lia.
  - apply Forall_cons in Hd as [H1 _]. apply digit_val_bound in H1. lia.
  - apply Forall_cons in Hd as [H1 Hd]. apply Forall_cons in Hd as [H2 _].
    apply digit_val_bound in H1, H2. lia.
Qed.

(** Whatever [parseTime12h] accepts, the hour it returns is at most 111
    and the minute at most 99, neither negative. *)
Lemma parseTime12h_bounds (str : string) (t : clock) :
  parseTime12h str = Ok t -> 0 <= h t <= 111 /\ 0 <= min t <= 99.
Proof.
  intros Ht.
  destruct (time_regex (trim_list (chars str))) as [[[g1 g2] g3] |] eqn:Hre.
  - destruct (time_regex_sound _ _ _ _ Hre)
      as (w2 & _ & _ & Hlen & Hhh & Hlm & Hmm & Hap).
    rewrite (parseTime12h_of_regex _ _ _ _ Hre Hap) in Ht.
    injection Ht as <-. simpl.
    assert (B1 : 0 <= parseInt10 g1 <= 99)
      by (apply parseInt10_bound; [destruct Hlen; lia | exact Hhh]).
    assert (B2 : 0 <= parseInt10 g2 <= 99)
      by (apply parseInt10_bound; [lia | exact Hmm]).
    split; [| exact B2]. unfold to24.
    destruct g3 as [| x ?]; [lia |].
    destruct (Ascii.eqb (upper x) "P");
      destruct (Z.eqb_spec (parseInt10 g1) 12); lia.
  - unfold parseTime12h, trim in Ht.
    rewrite list_ascii_of_string_of_list_ascii in Ht. fold (chars str) in Ht.
    rewrite Hre in Ht. discriminate.
Qed.

(** The text [addMinutes] returns for a start that parses and an offset
    that is not negative, with the bounds of the hour and minute shown. *)
Lemma addMinutes_value (timeStr : string) (k : Z) (t : clock) :
  parseTime12h timeStr = Ok t ->
  0 <= k ->
  addMinutes timeStr k
    = Ok (formatTime12h (((h t * 60 + min t + k) / 60) mod 24)
                        ((h t * 60 + min t + k) mod 60)) /\
  0 <= ((h t * 60 + min t + k) / 60) mod 24 < 24 /\
  0 <= (h t * 60 + min t + k) mod 60 < 60.
Proof.
  intros Ht Hk. destruct (parseTime12h_bounds _ _ Ht) as [Hh Hm].
  set (total := h t * 60 + min t + k).
  assert (Htot : 0 <= total) by (unfold total; lia).
  assert (Hq : 0 <= total / 60) by (apply Z.div_pos; lia).
  pose proof (Z.mod_pos_bound (total / 60) 24 ltac:(lia)) as B1.
  pose proof (Z.mod_pos_bound total 60 ltac:(lia)) as B2.
  split; [| split; assumption].
  rewrite (addMinutes_Ok _ _ _ Ht). fold total.
  rewrite !Z.rem_mod_nonneg by lia. reflexivity.
Qed.

(** X1. For every start text that parses, whatever its hour and minute, and
    every offset of 0 to 2^40 minutes, a range in which the binary64
    arithmetic of the source is exact, [addMinutes] returns a text that
    [parseTime12h] reads back as a time of day, hour 0 to 23 and minute 0 to
    59: the start moved by the offset, modulo 24 hours. *)
Theorem addMinutes_normalises (timeStr : string) (k : Z) (t : clock) :
  parseTime12h timeStr = Ok t ->
  0 <= k <= 2 ^ 40 ->
  exists r : string,
    addMinutes timeStr k = Ok r /\
    parseTime12h r
      = Ok {| h := ((h t * 60 + min t + k) / 60) mod 24;
              min := (h t * 60 + min t + k) mod 60 |} /\
    0 <= ((h t * 60 + min t + k) / 60) mod 24 < 24 /\
    0 <= (h t * 60 + min t + k) mod 60 < 60.
Proof.
  intros Ht [Hk _].
  destruct (addMinutes_value _ _ _ Ht Hk) as (Hr & B1 & B2).
  eexists. split; [exact Hr |].
  split; [apply formatTime12h_reads_back; assumption |].
  split; assumption.
Qed.

Lemma addMinutes_normalises_witness :
  exists r : string,
    addMinutes "13:75 PM" 30 = Ok r /\
    parseTime12h r = Ok {| h := 2; min := 45 |}.
Proof.
  destruct (addMinutes_normalises "13:75 PM" 30 {| h := 25; min := 75 |}
              eq_refl ltac:(lia)) as (r & Hr & Hp & _).
  exists r. split; [exact Hr | exact Hp].
Defined.

Lemma wrap_arith (T b : Z) :
  ((T / 60 mod 24 * 60 + T mod 60 + b) / 60) mod 24 = ((T + b) / 60) mod 24 /\
  (T / 60 mod 24 * 60 + T mod 60 + b) mod 60 = (T + b) mod 60.
Proof. Z.div_mod_to_equations. lia. Qed.

Lemma day_arith (T : Z) :
  ((T + 24 * 60) / 60) mod 24 = (T / 60) mod 24 /\
  (T + 24 * 60) mod 60 = T mod 60.
Proof. Z.div_mod_to_equations. lia. Qed.

(** Moving a start by [a] and the result by [b] is moving it by [a + b]. *)
Lemma addMinutes_add (timeStr : string) (a b : Z) (r : string) :
  0 <= a -> 0 <= b ->
  addMinutes timeStr a = Ok r ->
  addMinutes r b = addMinutes timeStr (a + b).
Proof.
  intros Ha Hb Hr.
  destruct (parseTime12h timeStr) as [t | e] eqn:Ht;
    [| unfold addMinutes in Hr; rewrite Ht in Hr; discriminate].
  destruct (addMinutes_value _ a _ Ht Ha) as (Hr' & B1 & B2).
  rewrite Hr in Hr'. injection Hr' as ->.
  pose proof (formatTime12h_reads_back _ _ B1 B2) as Hp.
  destruct (parseTime12h_bounds _ _ Ht) as [Hh Hm].
  rewrite (addMinutes_Ok _ _ _ Hp), (addMinutes_Ok _ _ _ Ht). cbn [h min].
  set (T := h t * 60 + min t + a) in *.
  assert (HT : 0 <= T) by (unfold T; lia).
  replace (h t * 60 + min t + (a + b)) with (T + b) by (unfold T; lia).
  destruct (wrap_arith T b) as [W1 W2].
  assert (P1 : 0 <= (T / 60 mod 24 * 60 + T mod 60 + b) / 60)
    by (apply Z.div_pos; lia).
  assert (P2 : 0 <= (T + b) / 60) by (apply Z.div_pos; lia).
  rewrite !Z.rem_mod_nonneg by lia.
  rewrite W1, W2. reflexivity.
Qed.

(** X2. Offsets add up and wrap at 24 hours: moving a start by [a] minutes
    and the result by [b] minutes gives the same text as moving the start by
    [a + b], and a whole day more changes nothing. The offsets are from 0 to
    2^39 minutes each, so that every offset passed is at most 2^40 and the
    binary64 arithmetic of the source is exact. *)
Theorem addMinutes_compose (timeStr : string) (a b : Z) (r : string) :
  0 <= a <= 2 ^ 39 -> 0 <= b <= 2 ^ 39 ->
  addMinutes timeStr a = Ok r ->
  addMinutes r b = addMinutes timeStr (a + b) /\
  addMinutes timeStr (a + 24 * 60) = Ok r.
Proof.
  intros [Ha _] [Hb _] Hr. split; [exact (addMinutes_add _ _ _ _ Ha Hb Hr) |].
  destruct (parseTime12h timeStr) as [t | e] eqn:Ht;
    [| unfold addMinutes in Hr; rewrite Ht in Hr; discriminate].
  destruct (parseTime12h_bounds _ _ Ht) as [Hh Hm].
  rewrite (addMinutes_Ok _ _ _ Ht) in Hr. rewrite (addMinutes_Ok _ _ _ Ht).
  replace (h t * 60 + min t + (a + 24 * 60))
    with (h t * 60 + min t + a + 24 * 60) by lia.
  set (T := h t * 60 + min t + a) in *.
  assert (HT : 0 <= T) by (unfold T; lia).
  destruct (day_arith T) as [D1 D2].
  assert (P3 : 0 <= (T + 24 * 60) / 60) by (apply Z.div_pos; lia).
  assert (P4 : 0 <= T / 60) by (apply Z.div_pos; lia).
  rewrite !Z.rem_mod_nonneg in Hr by lia.
  rewrite !Z.rem_mod_nonneg by lia.
  rewrite D1, D2. exact Hr.
Qed.

Lemma addMinutes_compose_witness :
  addMinutes "11:00 PM" 120 = addMinutes "8:00 AM" (900 + 120) /\
  addMinutes "8:00 AM" (900 + 24 * 60) = Ok "11:00 PM".
Proof.
  exact (addMinutes_compose "8:00 AM" 900 120 "11:00 PM"
           ltac:(lia) ltac:(lia) eq_refl).
Defined.

(** X3. For an hour from 0 to 23 and a minute from 0 to 59, the text of
    [formatTime12h] is an hour between 1 and 12 (0 and 12 are shown as 12), a
    colon, the minute on exactly two digits, one space, and [AM] below hour
    12, [PM] from hour 12 on. *)
Theorem formatTime12h_display (h24 m : Z) :
  0 <= h24 < 24 -> 0 <= m < 60 ->
  exists hh mm : list ascii,
    chars (formatTime12h h24 m)
      = hh ++ ":"%char :: mm ++ " "%char
           :: chars (if 12 <=? h24 then "PM" else "AM") /\
    all_digit hh /\ 1 <= parseInt10 hh <= 12 /\
    parseInt10 hh mod 12 = h24 mod 12 /\
    length mm = 2%nat /\ all_digit mm /\ parseInt10 mm = m.
Proof.
  intros Hh Hm.
  assert (E : forallb (fun x => forallb (displays x) (map Z.of_nat (seq 0 60)))
                      (map Z.of_nat (seq 0 24)) = true)
    by (vm_compute; reflexivity).
  pose proof (Z_range_forallb _ _ (Z_range_forallb _ _ E h24 Hh) m Hm) as H.
  unfold displays in H.
  destruct (time_regex (chars (formatTime12h h24 m)))
    as [[[hh mm] ap] |] eqn:Hre; [| discriminate].
  destruct (time_regex_sound _ _ _ _ Hre) as (_ & _ & _ & _ & Hhh & Hlm & Hmm & _).
  repeat (apply andb_prop in H as [H ?]).
  repeat match goal with
         | H : bool_decide _ = true |- _ => apply bool_decide_eq_true in H
         | H : (_ <=? _) = true |- _ => apply Z.leb_le in H
         | H : (_ =? _) = true |- _ => apply Z.eqb_eq in H
         end.
  subst ap. exists hh, mm. repeat split; try assumption.
Qed.

Lemma formatTime12h_display_witness :
  exists hh mm : list ascii,
    chars (formatTime12h 0 5) = hh ++ ":"%char :: mm ++ chars " AM" /\
    parseInt10 hh = 12 /\ length mm = 2%nat.
Proof.
  destruct (formatTime12h_display 0 5 ltac:(lia) ltac:(lia))
    as (hh & mm & E & _ & B & Hmod & Hl & _).
  exists hh, mm. split; [exact E |]. split; [| exact Hl].
  change (0 mod 12) with 0 in Hmod.
  apply Z.mod_divide in Hmod; [| lia]. destruct Hmod as [q Hq]. lia.
Defined.

(** ** Bracket construction *)

Lemma addMinutes_Throw (timeStr : string) (k : Z) (e : error) :
  parseTime12h timeStr = Throw e -> addMinutes timeStr k = Throw e.
Proof. unfold addMinutes. intros ->. reflexivity. Qed.

Lemma parseTime12h_Throw (str : string) (e : error) :
  parseTime12h str = Throw e -> e = Error ("Bad time format: " +:+ str).
Proof.
  unfold parseTime12h.
  destruct (time_regex _) as [[[g1 g2] g3] |]; [discriminate |].
  intros [= <-]. reflexivity.
Qed.

Ltac start_parses s :=
  let e := fresh "e" in
  let He := fresh "He" in
  destruct (parseTime12h s) as [? | e] eqn:He;
  [ repeat (erewrite (addMinutes_Ok s) by exact He; cbn [mbind result_bind])
  | pose proof (parseTime12h_Throw _ _ He); subst e;
    repeat (erewrite (addMinutes_Throw s) by exact He); reflexivity ].

(** X4. [buildGames] fails exactly when one of its six start times, defaults
    filled in, does not parse, and then throws "Bad time format: " followed
    by the first such text in the order Day 1 morning, Day 1 evening, Day 2
    morning, Day 2 evening, Day 3 morning, Day 3 evening. The team list plays
    no part in it. *)
Theorem buildGames_first_error (teams : list string) (cfg : config) :
  match first_bad (start_times cfg) with
  | Some s => buildGames teams cfg = Throw (Error ("Bad time format: " +:+ s))
  | None => exists gs, buildGames teams cfg = Ok gs
  end.
Proof.
  unfold start_times, first_bad, buildGames. cbv zeta. cbn [seq mapM].
  start_parses (or_default (day1MorningStart cfg) "8:00 AM").
  start_parses (or_default (day1EveningStart cfg) "4:00 PM").
  start_parses (or_default (day2MorningStart cfg) "9:00 AM").
  start_parses (or_default (day2EveningStart cfg) "5:00 PM").
  start_parses (or_default (day3MorningStart cfg) "10:00 AM").
  start_parses (or_default (day3EveningStart cfg) "5:00 PM").
  eexists. reflexivity.
Qed.

(** ** The view filter *)

Lemma filter_twice {A : Type} (f g : A -> bool) (l : list A) :
  List.filter f (List.filter g l) = List.filter (fun x => g x && f x) l.
Proof.
  induction l as [| x l IH]; [reflexivity |].
  cbn [List.filter]. destruct (g x); cbn [List.filter andb].
  - destruct (f x); rewrite IH; reflexivity.
  - exact IH.
Qed.

Lemma filterGames_sublist (l : list game) (d t : string) :
  sublist (filterGames l d t) l.
Proof.
  unfold filterGames. induction l as [| g l IH]; simpl.
  - constructor.
  - destruct (_ && _); [apply sublist_skip | apply sublist_cons]; exact IH.
Qed.

(** X5. [filterGames] keeps the games in their order and drops the others:
    its result is a sublist of the input that holds exactly the games whose
    day equals the day filter, unless that is "All", and whose slot equals
    the time filter, unless that is "All". With both filters "All" nothing
    is dropped, and filtering by day and then by time is filtering by both. *)
Theorem filterGames_spec (l : list game) (d t : string) :
  sublist (filterGames l d t) l /\
  (forall g, In g (filterGames l d t) <-> In g l /\ shown d t g = true) /\
  filterGames l "All" "All" = l /\
  filterGames (filterGames l d "All") "All" t = filterGames l d t.
Proof.
  split; [apply filterGames_sublist |]. split; [| split].
  - intros g. unfold filterGames. rewrite filter_In. reflexivity.
  - unfold filterGames. induction l as [| g l IH]; [reflexivity |].
    cbn [List.filter]. rewrite IH. reflexivity.
  - unfold filterGames. rewrite filter_twice. apply filter_ext. intros g.
    destruct (String.eqb d "All" || String.eqb (day g) d),
             (String.eqb t "All" || String.eqb (timeSlot g) t); reflexivity.
Qed.

Lemma filterGames_spec_witness :
  filterGames (filterGames (all default_games) "Day 1" "All") "All" "Evening"
    = filterGames (all default_games) "Day 1" "Evening".
Proof.
  exact (proj2 (proj2 (proj2
    (filterGames_spec (all default_games) "Day 1" "Evening")))).
Defined.

Lemma filterGames_unknown_day (l : list game) (d t : string) :
  d <> "All" -> (forall g, g ∈ l -> day g <> d) -> filterGames l d t = [].
Proof.
  intros Hd Hl. unfold filterGames.
  induction l as [| g l IH]; [reflexivity |].
  cbn [List.filter].
  assert (E1 : String.eqb d "All" = false) by (apply String.eqb_neq; exact Hd).
  assert (E2 : String.eqb (day g) d = false)
    by (apply String.eqb_neq, Hl; constructor).
  rewrite IH by (intros g' Hg'; apply Hl; constructor; exact Hg').
  rewrite E1, E2. reflexivity.
Qed.

(** X6. On every bracket that [buildGames] returns, the day filters cut the
    list of all games into the three rounds: "Day 1" shows the 8 games of
    Day 1, "Day 2" the 4 of Day 2, "Day 3" the two semifinals and the final,
    each in bracket order; 7 games are played in the morning and 8 in the
    evening; a day or slot that does not exist shows nothing. *)
Theorem filterGames_rounds (teams : list string) (cfg : config) (gs : games) :
  buildGames teams cfg = Ok gs ->
  filterGames (all gs) "Day 1" "All" = day1 gs /\
  filterGames (all gs) "Day 2" "All" = day2 gs /\
  filterGames (all gs) "Day 3" "All" = day3 gs /\
  length (filterGames (all gs) "All" "Morning") = 7%nat /\
  length (filterGames (all gs) "All" "Evening") = 8%nat /\
  (forall d t, d <> "All" -> d <> "Day 1" -> d <> "Day 2" -> d <> "Day 3" ->
     filterGames (all gs) d t = []).
Proof.
  unfold buildGames. cbv zeta. intros H.
  apply bind_Ok in H as (d1 & Hd1 & H).
  do 7 bind_inv H.
  injection H as <-.
  cbn [seq] in Hd1.
  do 8 (apply mapM_cons_Ok in Hd1 as (? & ? & Hg & Hd1 & ->);
        bind_inv Hg; injection Hg as <-).
  injection Hd1 as <-.
  do 5 (split; [reflexivity |]).
  intros d t H0 H1 H2 H3. apply filterGames_unknown_day; [exact H0 |].
  intros g Hg. cbn [all app] in Hg.
  repeat (apply elem_of_cons in Hg as [-> | Hg]);
    [.. | apply elem_of_nil in Hg; contradiction];
    cbn [day]; congruence.
Qed.

Lemma filterGames_rounds_witness :
  filterGames (all default_games) "Day 2" "All" = day2 default_games /\
  length (filterGames (all default_games) "All" "Morning") = 7%nat.
Proof.
  destruct (filterGames_rounds default_teams default_config default_games
              default_games_built) as (_ & H2 & _ & Hm & _).
  split; assumption.
Defined.

(** ** Winners and teams *)

(** X7. The winner does not depend on which bench is called A: exchanging
    the two sides of a record, names and entries together, leaves
    [getWinner] unchanged. *)
Theorem getWinner_mirror (gameId : string) (state state' : State)
    (s : Score.t) :
  scores state !! gameId = Some s ->
  scores state' !! gameId = Some (mirror s) ->
  getWinner gameId state' = getWinner gameId state.
Proof.
  intros Hs Hs'. unfold getWinner. rewrite Hs, Hs'. cbn [mirror Score.a Score.b
    Score.teamA Score.teamB].
  set (a := Number (Score.a s)). set (b := Number (Score.b s)).
  rewrite (orb_comm (negb (Number_isFinite b))), (num_eq_sym b a).
  destruct (Number_isFinite a) eqn:Ha; [| reflexivity].
  destruct (Number_isFinite b) eqn:Hb; [| reflexivity].
  cbn [negb orb].
  destruct (num_eq a b) eqn:Hne; [reflexivity |].
  destruct (num_gt_total a b Ha Hb Hne) as [[-> ->] | [-> ->]]; reflexivity.
Qed.

Lemma getWinner_mirror_witness :
  getWinner "D1G1"
    (set_scores (<["D1G1" := rec "Heat" "Lakers" (Str "3") (Str "10")]> ∅))
  = getWinner "D1G1" sample_state.
Proof.
  apply (getWinner_mirror "D1G1" sample_state _
           (rec "Lakers" "Heat" (Str "10") (Str "3"))); reflexivity.
Defined.

Lemma winner_iff_complete (gameId : string) (state : State) :
  is_Some (getWinner gameId state) <-> complete gameId state.
Proof.
  unfold getWinner, complete, decided.
  destruct (scores state !! gameId) as [s |]; split.
  - intros [w Hw]. exists s. split; [reflexivity |].
    destruct (Number_isFinite (Number (Score.a s))); [| discriminate].
    destruct (Number_isFinite (Number (Score.b s))); [| discriminate].
    destruct (num_eq _ _); [discriminate | auto].
  - intros (s' & [= <-] & -> & -> & ->). cbn [negb orb].
    destruct (num_gt _ _); eauto.
  - intros [w Hw]. discriminate.
  - intros (s' & Hs' & _). discriminate.
Qed.

(** X8. The gate and the winner resolver agree: [isDayComplete] holds of a
    list of games exactly when [getWinner] names a winner for every one of
    them. *)
Theorem isDayComplete_iff_winners (dayGames : list game) (state : State) :
  isDayComplete dayGames state = true <->
  forall g, g ∈ dayGames -> is_Some (getWinner (id g) state).
Proof.
  rewrite isDayComplete_iff. split.
  - intros H g Hg. apply winner_iff_complete, H, list_elem_of_fmap. eauto.
  - intros H gid Hin. apply list_elem_of_fmap in Hin as (g & -> & Hg).
    apply winner_iff_complete, H, Hg.
Qed.

Lemma isDayComplete_iff_winners_witness :
  exists g, day1 default_games !! 0%nat = Some g /\
    is_Some (getWinner (id g) day1_done_state).
Proof.
  eexists. split; [reflexivity |].
  apply (proj1 (isDayComplete_iff_winners (day1 default_games) day1_done_state)).
  - vm_compute. reflexivity.
  - constructor.
Defined.

Lemma resolve_two_deps (g : game) (g1 g2 : string) (state : State) :
  teamA g = None -> dependsOn g = [g1; g2] -> g1 <> "" -> g2 <> "" ->
  resolveTeamsForGame g state
    = {| pairA := advanced g1 state; pairB := advanced g2 state |}.
Proof.
  intros HA Hd H1 H2. unfold resolveTeamsForGame, advanced.
  rewrite HA, Hd.
  cbn [truthy_str andb lookup list_lookup default from_option Datatypes.id].
  apply String.eqb_neq in H1, H2. rewrite H1, H2. cbn [negb].
  destruct (getWinner g1 state) as [w1 |], (getWinner g2 state) as [w2 |];
    cbn [truthy_str default from_option Datatypes.id];
    try destruct (String.eqb w1 ""); try destruct (String.eqb w2 "");
    reflexivity.
Qed.

(** X9. In every bracket that [buildGames] returns, a game of Day 2 or Day 3
    has exactly two dependencies and shows for each of them the stored name
    of its winner, once there is a winner and that name is not empty, and
    the placeholder "Winner " followed by the dependency's id until then. *)
Theorem resolve_derived (teams : list string) (cfg : config) (gs : games)
    (state : State) (g : game) :
  buildGames teams cfg = Ok gs ->
  g ∈ day2 gs ++ day3 gs ->
  exists g1 g2,
    dependsOn g = [g1; g2] /\
    resolveTeamsForGame g state
      = {| pairA := advanced g1 state; pairB := advanced g2 state |}.
Proof.
  unfold buildGames. cbv zeta. intros H Hg.
  apply bind_Ok in H as (d1 & _ & H).
  do 7 bind_inv H.
  injection H as <-. cbn [day2 day3 app] in Hg.
  repeat (apply elem_of_cons in Hg as [-> | Hg]);
    [.. | apply elem_of_nil in Hg; contradiction];
    eexists _, _; (split; [reflexivity |]);
    apply resolve_two_deps; try reflexivity; discriminate.
Qed.

Lemma resolve_derived_witness :
  exists g, day2 default_games !! 0%nat = Some g /\
    resolveTeamsForGame g sample_state
      = {| pairA := "Lakers"; pairB := "Winner D1G2" |}.
Proof.
  eexists. split; [reflexivity |].
  match goal with
  | |- resolveTeamsForGame ?g _ = _ =>
      destruct (resolve_derived default_teams default_config default_games
                  sample_state g default_games_built)
        as (g1 & g2 & Hd & Hr)
  end.
  - apply elem_of_app. left. constructor.
  - injection Hd as <- <-. exact Hr.
Defined.

(** X10. The Day-3 bracket view and the game list agree on the finalists:
    the names [renderBracket] shows for the final are those that
    [resolveTeamsForGame] gives the final game, as long as no semifinal
    winner is stored under the name "TBD". *)
Theorem finalTeams_agree (teams : list string) (cfg : config) (gs : games)
    (state : State) (final : game) :
  buildGames teams cfg = Ok gs ->
  day3 gs !! 2%nat = Some final ->
  getWinner "D3SF1" state <> Some "TBD" ->
  getWinner "D3SF2" state <> Some "TBD" ->
  finalTeams state = resolveTeamsForGame final state.
Proof.
  unfold buildGames. cbv zeta. intros H Hf H1 H2.
  apply bind_Ok in H as (d1 & _ & H).
  do 7 bind_inv H.
  injection H as <-. cbn [day3 lookup list_lookup] in Hf.
  injection Hf as <-.
  rewrite (resolve_two_deps _ "D3SF1" "D3SF2") by (reflexivity || discriminate).
  assert (T : forall w, Some w <> Some "TBD" -> String.eqb w "TBD" = false)
    by (intros w Hw; apply String.eqb_neq; congruence).
  unfold finalTeams, advanced, or_default, truthy_str.
  destruct (getWinner "D3SF1" state) as [w1 |];
    destruct (getWinner "D3SF2" state) as [w2 |];
    try destruct (String.eqb w1 ""); try destruct (String.eqb w2 "");
    cbn [negb]; rewrite ?(T w1 H1), ?(T w2 H2); reflexivity.
Qed.

Lemma finalTeams_agree_witness :
  exists final, day3 default_games !! 2%nat = Some final /\
    finalTeams sample_state = resolveTeamsForGame final sample_state.
Proof.
  eexists. split; [reflexivity |].
  apply (finalTeams_agree default_teams default_config default_games);
    [exact default_games_built | reflexivity | |]; vm_compute; discriminate.
Defined.

(** ** Rendering *)

Lemma renderGames_cons (g : game) (l : list game) (state : State) :
  renderGames (g :: l) state = renderGames l (renderGames [g] state).
Proof. reflexivity. Qed.

Lemma renderGames_one (g : game) (state : State) (k : string) :
  scores (renderGames [g] state) !! k =
    if decide (id g = k) then
      Some {| Score.teamA := pairA (resolveTeamsForGame g state);
              Score.teamB := pairB (resolveTeamsForGame g state);
              Score.a := match scores state !! k with
                         | Some s => Score.a s | None => Str "" end;
              Score.b := match scores state !! k with
                         | Some s => Score.b s | None => Str "" end |}
    else scores state !! k.
Proof.
  unfold renderGames. cbn [fold_left].
  destruct (decide (id g = k)) as [<- | Hne].
  - destruct (scores state !! id g); cbn [scores set_scores];
      rewrite lookup_insert_eq; reflexivity.
  - destruct (scores state !! id g); cbn [scores set_scores];
      rewrite lookup_insert_ne by exact Hne; reflexivity.
Qed.

(** What one pass of [renderGames] does to the entries of a game: nothing
    if the game has a record or is not drawn, and blank entries otherwise. *)
Lemma renderGames_entries (l : list game) (state : State) (k : string) :
  entries (renderGames l state) k =
    match entries state k with
    | Some e => Some e
    | None => if bool_decide (k ∈ map id l) then Some (Str "", Str "") else None
    end.
Proof.
  revert state. induction l as [| g l IH]; intros state.
  - cbn. destruct (entries state k); reflexivity.
  - rewrite renderGames_cons, IH. unfold entries.
    rewrite renderGames_one. cbn [map].
    destruct (decide (id g = k)) as [E | Hne].
    + rewrite (bool_decide_eq_true_2 (k ∈ id g :: map id l))
        by (rewrite E; constructor).
      destruct (scores state !! k); reflexivity.
    + destruct (scores state !! k) as [s |]; [reflexivity |].
      cbn [fmap option_fmap option_map].
      rewrite (bool_decide_ext (k ∈ id g :: map id l) (k ∈ map id l));
        [reflexivity |].
      rewrite elem_of_cons. split; [| auto]. intros [-> | H]; [| exact H].
      contradiction.
Qed.

Lemma complete_entries (state state' : State) (k : string) :
  (entries state' k = entries state k \/
   (entries state k = None /\ entries state' k = Some (Str "", Str ""))) ->
  (complete k state' <-> complete k state).
Proof.
  unfold entries, complete, decided.
  destruct (scores state !! k) as [s |], (scores state' !! k) as [s' |];
    cbn; intros [H | [H1 H2]]; try discriminate.
  - injection H as Ha Hb. split; intros (? & [= <-] & Hd);
      eexists; (split; [reflexivity |]); rewrite ?Ha, ?Hb in *; exact Hd.
  - injection H2 as Ha Hb. split.
    + intros (? & [= <-] & _ & _ & Hne). rewrite Ha, Hb in Hne.
      vm_compute in Hne. discriminate.
    + intros (? & [=] & _).
  - split; intros (? & [=] & _).
Qed.

Lemma renderGames_complete (l : list game) (state : State) (k : string) :
  complete k (renderGames l state) <-> complete k state.
Proof.
  apply complete_entries. rewrite renderGames_entries.
  destruct (entries state k); [left; reflexivity |].
  destruct (bool_decide _); [right | left]; auto.
Qed.

Lemma isDayComplete_ext (dayGames : list game) (state state' : State) :
  (forall k, complete k state' <-> complete k state) ->
  isDayComplete dayGames state' = isDayComplete dayGames state.
Proof.
  intros H. apply eq_true_iff_eq. rewrite !isDayComplete_iff.
  split; intros Hall k Hk; apply H, Hall, Hk.
Qed.

(** X11. Drawing never moves the gate: whatever list of games [renderGames]
    draws, on whatever ledger, the lock state of the three days is the same
    after as before, although the pass creates records and rewrites names. *)
Theorem renderGames_keeps_gate (gs : games) (l : list game) (state : State) :
  computeLockedDays gs (renderGames l state) = computeLockedDays gs state.
Proof.
  unfold computeLockedDays.
  rewrite !(isDayComplete_ext _ state (renderGames l state))
    by (intros k; apply renderGames_complete).
  reflexivity.
Qed.

(** X12. A pass of [renderGames] never changes a score: a record that
    exists keeps its two entries; a drawn game without a record gets one
    with two empty entries; a game that is not drawn and has no record still
    has none. *)
Theorem renderGames_records (l : list game) (state : State) (k : string) :
  (forall s, scores state !! k = Some s ->
     exists s', scores (renderGames l state) !! k = Some s' /\
                Score.a s' = Score.a s /\ Score.b s' = Score.b s) /\
  (scores state !! k = None -> k ∈ map id l ->
     exists s', scores (renderGames l state) !! k = Some s' /\
                blank_entries s') /\
  (scores state !! k = None -> k ∉ map id l ->
     scores (renderGames l state) !! k = None).
Proof.
  pose proof (renderGames_entries l state k) as H. unfold entries in H.
  split; [| split].
  - intros s Hs. rewrite Hs in H. cbn in H.
    destruct (scores (renderGames l state) !! k) as [s' |]; [| discriminate].
    injection H as Ha Hb. eauto.
  - intros Hs Hin. rewrite Hs in H. cbn in H.
    rewrite (bool_decide_eq_true_2 _ Hin) in H.
    destruct (scores (renderGames l state) !! k) as [s' |]; [| discriminate].
    injection H as Ha Hb. exists s'. split; [reflexivity | split; assumption].
  - intros Hs Hin. rewrite Hs in H. cbn in H.
    rewrite (bool_decide_eq_false_2 _ Hin) in H.
    destruct (scores (renderGames l state) !! k); [discriminate | reflexivity].
Qed.

Lemma renderGames_records_witness :
  exists s', scores (renderGames (all default_games) sample_state) !! "D1G1"
             = Some s' /\
             Score.a s' = Str "10" /\ Score.b s' = Str "3".
Proof.
  exact (proj1 (renderGames_records (all default_games) sample_state "D1G1")
           (rec "Lakers" "Heat" (Str "10") (Str "3")) eq_refl).
Defined.

(** ** Editing a score *)

Lemma built_find_day (teams : list string) (cfg : config) (gs : games)
    (g : game) :
  buildGames teams cfg = Ok gs ->
  g ∈ all gs ->
  List.find (fun g' => String.eqb (id g') (id g)) (all gs) = Some g /\
  (g ∈ day1 gs -> day g = "Day 1") /\
  (g ∈ day2 gs -> day g = "Day 2") /\
  (g ∈ day3 gs -> day g = "Day 3").
Proof.
  unfold buildGames. cbv zeta. intros H Hg.
  apply bind_Ok in H as (d1 & Hd1 & H).
  do 7 bind_inv H.
  injection H as <-.
  cbn [seq] in Hd1.
  do 8 (apply mapM_cons_Ok in Hd1 as (? & ? & Hg1 & Hd1 & ->);
        bind_inv Hg1; injection Hg1 as <-).
  injection Hd1 as <-.
  cbn [all day1 day2 day3 app] in *.
  split.
  - repeat (apply elem_of_cons in Hg as [-> | Hg]);
      [.. | apply elem_of_nil in Hg; contradiction]; reflexivity.
  - clear Hg. repeat split; intros Hg;
      repeat (apply elem_of_cons in Hg as [-> | Hg]);
      try (apply elem_of_nil in Hg; contradiction); reflexivity.
Qed.

Lemma fold_insert_find (l : list game) (m : gmap string game) (k : string) :
  NoDup (map id l) ->
  fold_left (fun m g => <[id g := g]> m) l m !! k =
    match List.find (fun g => String.eqb (id g) k) l with
    | Some g => Some g
    | None => m !! k
    end.
Proof.
  revert m. induction l as [| g l IH]; intros m Hnd; [reflexivity |].
  cbn [map] in Hnd. apply NoDup_cons in Hnd as [Hg Hnd].
  cbn [fold_left List.find]. rewrite (IH _ Hnd).
  destruct (String.eqb_spec (id g) k) as [E | Hne].
  - assert (Hnone : List.find (fun g' => String.eqb (id g') k) l = None).
    { destruct (List.find _ l) as [g' |] eqn:Hf; [| reflexivity].
      apply find_some in Hf as [Hin Heq]. apply String.eqb_eq in Heq.
      exfalso. apply Hg. rewrite E, <- Heq.
      apply list_elem_of_fmap. exists g'. split; [reflexivity |].
      apply list_elem_of_In. exact Hin. }
    rewrite Hnone, E. apply lookup_insert_eq.
  - destruct (List.find _ l); [reflexivity |].
    apply lookup_insert_ne. exact Hne.
Qed.

Lemma built_ids_NoDup (teams : list string) (cfg : config) (gs : games) :
  buildGames teams cfg = Ok gs -> NoDup (map id (all gs)).
Proof.
  intros Hgs. destruct (buildGames_inv _ _ _ Hgs) as [_ Hnodes _ _ _ _ _ _].
  replace (map id (all gs)) with (map (fun n => fst (fst n)) (map node (all gs)))
    by (rewrite map_map; reflexivity).
  rewrite Hnodes. apply (bool_decide_unpack _). vm_compute. exact I.
Qed.

Lemma gamesById_eq_find (teams : list string) (cfg : config) (gs : games)
    (k : string) :
  buildGames teams cfg = Ok gs ->
  gamesById gs !! k = List.find (fun g => String.eqb (id g) k) (all gs).
Proof.
  intros Hgs. pose proof (built_ids_NoDup _ _ _ Hgs) as Hnd.
  unfold gamesById. rewrite (fold_insert_find _ _ _ Hnd).
  destruct (List.find _ _); [reflexivity | apply lookup_empty].
Qed.

(** X15. The two variants look a game up alike: on every bracket that
    [buildGames] returns, the own properties of the object [gamesById] of
    the local variant are the 15 ids of the bracket, and under the id of a
    game the object holds that game, the one that the search through
    [games.all] of the remote variant finds for the id. *)
Theorem gamesById_find (teams : list string) (cfg : config) (gs : games) :
  buildGames teams cfg = Ok gs ->
  dom (gamesById gs) = list_to_set (map id (all gs)) /\
  size (gamesById gs) = 15%nat /\
  (forall g, g ∈ all gs ->
     gamesById gs !! id g = Some g /\
     List.find (fun g' => String.eqb (id g') (id g)) (all gs) = Some g).
Proof.
  intros Hgs.
  assert (E : forall k, gamesById gs !! k
              = List.find (fun g => String.eqb (id g) k) (all gs))
    by (intros k; apply (gamesById_eq_find teams cfg); exact Hgs).
  assert (Hdom : dom (gamesById gs) = list_to_set (map id (all gs))).
  { apply set_eq. intros k.
    rewrite elem_of_dom, elem_of_list_to_set, E, list_elem_of_fmap. split.
    - intros [g Hf]. apply find_some in Hf as [Hin Heq].
      apply String.eqb_eq in Heq. exists g.
      split; [symmetry; exact Heq | apply list_elem_of_In; exact Hin].
    - intros (g & -> & Hg). exists g. apply (built_find_day _ _ _ _ Hgs Hg). }
  split; [exact Hdom |]. split.
  - rewrite <- size_dom, Hdom.
    rewrite size_list_to_set by exact (built_ids_NoDup _ _ _ Hgs).
    destruct (buildGames_inv _ _ _ Hgs) as [_ Hnodes _ _ _ _ _ _].
    rewrite length_map, <- (length_map node), Hnodes. reflexivity.
  - intros g Hg. rewrite E. split; apply (built_find_day _ _ _ _ Hgs Hg).
Qed.

Lemma gamesById_find_witness :
  exists g, all default_games !! 10%nat = Some g /\
    gamesById default_games !! "D2G3" = Some g.
Proof.
  eexists. split; [reflexivity |].
  match goal with
  | |- _ = Some ?g =>
      destruct (proj2 (proj2 (gamesById_find default_teams default_config
                                default_games default_games_built)) g)
        as [H _]; [| exact H]
  end.
  apply list_elem_of_lookup. exists 10%nat. reflexivity.
Defined.

(** X16. The local [input] listener, on every bracket that [buildGames]
    returns and for every game of it: what it leaves in memory is what it
    stored under [localStorage]; while the day of the game is locked no
    record loses or changes an entry; for a game of Day 1 the record of the
    game holds afterwards the digits of the typed text on the edited side
    and the former entry, or the empty string, on the other. *)
Theorem local_scoreInput_rounds (teams : list string) (cfg : config)
    (ap : Local.app) (g : game) (sd : side) (raw : string) :
  buildGames teams cfg = Ok (Local.bracket ap) ->
  g ∈ all (Local.bracket ap) ->
  let out := LocalInput.scoreInput ap (id g) sd raw in
  Local.localStorage out = Some (Local.state out) /\
  Local.bracket out = Local.bracket ap /\
  (locked (computeLockedDays (Local.bracket ap) (Local.state ap)) (day g) = true ->
     forall k e, entries (Local.state ap) k = Some e ->
                 entries (Local.state out) k = Some e) /\
  (g ∈ day1 (Local.bracket ap) ->
     entries (Local.state out) (id g)
       = Some (edited (entries (Local.state ap) (id g)) sd (digits_only raw))).
Proof.
  intros Hgs Hg out. subst out. unfold LocalInput.scoreInput.
  destruct (built_find_day _ _ _ g Hgs Hg) as (Hf & D1 & _ & _).
  rewrite (gamesById_eq_find _ _ _ _ Hgs), Hf.
  destruct (locked _ (day g)) eqn:Hl.
  - split; [reflexivity |]. split; [reflexivity |]. split.
    + intros _ k e He. cbn [Local.render Local.state].
      rewrite renderGames_entries, He. reflexivity.
    + intros Hd. rewrite (D1 Hd) in Hl. discriminate.
  - cbv zeta. split; [reflexivity |]. split; [reflexivity |].
    split; [discriminate |].
    intros _. cbn [Local.render Local.state Local.bracket Local.dayFilter
                   Local.timeFilter].
    rewrite renderGames_entries. unfold entries at 1.
    cbn [scores set_scores]. rewrite lookup_insert_eq.
    unfold entries, edited.
    destruct (scores (Local.state ap) !! id g) as [s |]; destruct sd;
      reflexivity.
Qed.

Lemma local_scoreInput_rounds_witness :
  exists g, day1 default_games !! 0%nat = Some g /\
    entries (Local.state (LocalInput.scoreInput played_app (id g) SideA "1x2"))
            (id g)
      = Some (Str "12", Str "5").
Proof.
  eexists. split; [reflexivity |].
  match goal with
  | |- entries (Local.state (LocalInput.scoreInput _ (id ?g) _ _)) _ = _ =>
      destruct (local_scoreInput_rounds default_teams default_config
                  played_app g SideA "1x2" default_games_built)
        as (_ & _ & _ & H1)
  end.
  - constructor.
  - rewrite H1 by constructor. reflexivity.
Defined.

(** ** Loading the scores *)






(** ** Editing a score: the whole listener *)







Lemma render_locks (ap : Remote.app) :
  computeLockedDays (Remote.bracket ap) (Remote.state (Remote.render ap))
    = computeLockedDays (Remote.bracket ap) (Remote.state ap).
Proof.
  cbn [Remote.render Remote.with_state Remote.state]. unfold computeLockedDays.
  rewrite !(isDayComplete_ext _ (Remote.state ap) (renderGames _ _))
    by (intros k; apply renderGames_complete).
  reflexivity.
Qed.






(** ** Escaping *)

Lemma chars_app (s t : string) : chars (s +:+ t) = chars s ++ chars t.
Proof.
  unfold chars. induction s as [| c s IH]; [reflexivity |].
  simpl. f_equal. exact IH.
Qed.

(** X18. The text that [escapeHtml] returns holds no angle bracket and no
    single or double quote: each of them, and the ampersand, is replaced by
    its entity; every other character is kept, so a text without these five
    is returned as it is. *)
Theorem escapeHtml_inert (s : string) :
  Forall (fun c => inert c = true) (chars (escapeHtml s)) /\
  (Forall (fun c => plain c = true) (chars s) -> escapeHtml s = s).
Proof.
  split.
  - induction s as [| c s IH]; [constructor |].
    cbn [escapeHtml]. rewrite chars_app. apply Forall_app. split; [| exact IH].
    unfold escape_char.
    repeat match goal with
           | |- context [Ascii.eqb c ?x] =>
               destruct (Ascii.eqb c x) eqn:?; [repeat constructor |]
           end.
    repeat constructor. unfold inert.
    repeat match goal with H : Ascii.eqb c _ = false |- _ => rewrite H; clear H end.
    reflexivity.
  - induction s as [| c s IH]; [reflexivity |].
    intros H. apply Forall_cons in H as [Hc H]. cbn [escapeHtml].
    rewrite (IH H). unfold plain, inert in Hc. unfold escape_char.
    repeat match goal with
           | |- context [Ascii.eqb c ?x] =>
               destruct (Ascii.eqb c x); [discriminate Hc |]
           end.
    reflexivity.
Qed.

(** X19. The text that [escapeAttr] returns holds no double quote; a text
    without one is returned as it is. Ampersands and angle brackets are
    kept. *)
Theorem escapeAttr_no_quote (s : string) :
  Forall (fun c => Ascii.eqb c "034" = false) (chars (escapeAttr s)) /\
  (Forall (fun c => Ascii.eqb c "034" = false) (chars s) -> escapeAttr s = s).
Proof.
  split.
  - induction s as [| c s IH]; [constructor |].
    cbn [escapeAttr]. rewrite chars_app. apply Forall_app. split; [| exact IH].
    destruct (Ascii.eqb c "034") eqn:E; repeat constructor. exact E.
  - induction s as [| c s IH]; [reflexivity |].
    intros H. apply Forall_cons in H as [Hc H]. cbn [escapeAttr].
    rewrite (IH H), Hc. reflexivity.
Qed.

Lemma escapeHtml_inert_witness : escapeHtml "Team 1 (A)" = "Team 1 (A)".
Proof.
  apply (proj2 (escapeHtml_inert "Team 1 (A)")). repeat constructor.
Defined.

Lemma escapeAttr_no_quote_witness : escapeAttr "<10>" = "<10>".
Proof.
  apply (proj2 (escapeAttr_no_quote "<10>")). repeat constructor.
Defined.

(** ** The score endpoint *)

(** X20. The endpoint writes only for an authorized POST: whenever [handler]
    hands a row to the table, the method is POST, the header starts with
    "Bearer ", the identity service knows the token, the user is on the allow
    list and the body names a game. Every other POST is answered by one of
    401 "Missing token", 401 "Invalid token", 403 "Not allowed" and
    400 "Missing gameId", and writes nothing; a method other than GET and
    POST is answered "Method Not Allowed". *)
Theorem handler_writes_authorized (be : Api.backend) (req : Api.request) :
  (forall row, snd (Api.handler be req) = Some row -> authorized be req) /\
  (Api.method req = "POST" -> ~ authorized be req ->
     fst (Api.handler be req) ∈ refusals /\ snd (Api.handler be req) = None) /\
  (Api.method req <> "GET" -> Api.method req <> "POST" ->
     Api.handler be req = (Api.MethodNotAllowed, None)).
Proof.
  unfold authorized, Api.handler. split; [| split].
  - intros row.
    destruct (String.eqb_spec (Api.method req) "GET") as [_ | _].
    { destruct (Api.select_scores be); discriminate. }
    destruct (String.eqb_spec (Api.method req) "POST") as [Hm | _];
      [| discriminate].
    destruct (String.prefix _ _); [| discriminate]. cbn [negb].
    destruct (Api.getUser be _) as [uid |]; [| discriminate].
    destruct (Api.includes _ uid) eqn:Hin; [| discriminate]. cbn [negb].
    destruct (Api.truthy _); [| discriminate].
    intros _. eauto 10.
  - intros Hm Hn. rewrite Hm. cbn [String.eqb Ascii.eqb Bool.eqb].
    destruct (String.prefix _ _); cbn [negb];
      [| split; [unfold refusals; set_solver | reflexivity]].
    destruct (Api.getUser be _) as [uid |];
      [| split; [unfold refusals; set_solver | reflexivity]].
    destruct (Api.includes _ uid) eqn:Hin; cbn [negb];
      [| split; [unfold refusals; set_solver | reflexivity]].
    destruct (Api.truthy _); cbn [negb];
      [| split; [unfold refusals; set_solver | reflexivity]].
    exfalso. apply Hn. eauto 10.
  - intros H1 H2. apply String.eqb_neq in H1, H2. rewrite H1, H2. reflexivity.
Qed.

Lemma handler_writes_authorized_witness :
  fst (Api.handler admin_backend
         {| Api.method := "POST"; Api.authorization := Some "Bearer nope";
            Api.gameId := Str "D1G1"; Api.a := Str "1"; Api.b := Str "2" |})
    ∈ refusals.
Proof.
  apply (proj1 (proj2 (handler_writes_authorized admin_backend _))).
  - reflexivity.
  - intros (_ & _ & (uid & Huid & _) & _). vm_compute in Huid. discriminate.
Defined.

(** X21. The edit flag that a GET reports and the authorization of a POST
    agree: a caller whom [canEditFromRequest] lets edit is, with the same
    header, never turned away by a POST with 401 or 403; a POST that names a
    game is then authorized. Conversely the caller of an authorized POST
    whose token is not empty is reported as editor. *)
Theorem canEdit_agrees (be : Api.backend) (req req' : Api.request) :
  Api.authorization req' = Api.authorization req ->
  Api.method req' = "POST" ->
  (Api.canEditFromRequest be req = true ->
     (forall msg, fst (Api.handler be req') <> Api.Json 401 msg /\
                  fst (Api.handler be req') <> Api.Json 403 msg) /\
     (Api.truthy (Api.gameId req') = true -> authorized be req')) /\
  (authorized be req' -> Api.getBearerToken req <> "" ->
     Api.canEditFromRequest be req = true).
Proof.
  intros Hauth Hm.
  unfold Api.canEditFromRequest, Api.getBearerToken, authorized, Api.handler,
    Api.header. rewrite Hauth, Hm. cbn [String.eqb Ascii.eqb Bool.eqb].
  set (auth := default "" (Api.authorization req)).
  destruct (String.prefix "Bearer " auth); cbn [negb].
  2: { split; [discriminate |]. intros (_ & [=] & _). }
  split.
  - destruct (String.eqb _ "") ; [discriminate |].
    destruct (Api.getUser be _) as [uid |]; [| discriminate].
    intros Hin. rewrite Hin. cbn [negb]. split.
    + intros msg.
      destruct (Api.truthy _); cbn [negb fst]; [| split; discriminate].
      destruct (negb _ || negb _); cbn [fst]; [split; discriminate |].
      destruct (num_eq _ _); cbn [fst]; [split; discriminate |].
      destruct (Api.upsert_error be); cbn [fst]; split; try discriminate.
      all: intros [= E _]; discriminate.
    + intros Ht. eauto 10.
  - intros (_ & _ & (uid & Huid & Hin) & _) Htok.
    apply String.eqb_neq in Htok. rewrite Htok, Huid. exact Hin.
Qed.

Lemma canEdit_agrees_witness :
  authorized admin_backend (post (Str "D1G1") (Str "1") (Str "2")).
Proof.
  refine (proj2 (proj1 (canEdit_agrees admin_backend
            {| Api.method := "GET"; Api.authorization := Some "Bearer tok";
               Api.gameId := Undefined; Api.a := Undefined; Api.b := Undefined |}
            (post (Str "D1G1") (Str "1") (Str "2")) eq_refl eq_refl) _) _);
    reflexivity.
Defined.

Lemma scores_map_lookup (data : list (string * value * value))
    (m : gmap string (value * value)) (k : string) :
  NoDup (map row_key data) ->
  fold_left (fun m '(gid, ra, rb) =>
               if String.eqb gid "__proto__" then m
               else <[gid := (ra, rb)]> m) data m !! k =
    match List.find (fun r => String.eqb (row_key r) k) data with
    | Some r => if String.eqb k "__proto__" then m !! k
                else Some (snd (fst r), snd r)
    | None => m !! k
    end.
Proof.
  revert m. induction data as [| [[k0 a0] b0] data IH]; intros m Hnd;
    [reflexivity |].
  cbn [map] in Hnd. apply NoDup_cons in Hnd as [Hk0 Hnd].
  cbn [fold_left List.find]. rewrite (IH _ Hnd).
  change (row_key (k0, a0, b0)) with k0 in *.
  destruct (String.eqb_spec k0 k) as [<- | Hne].
  - assert (Hnone : List.find (fun r => String.eqb (row_key r) k0) data = None).
    { destruct (List.find _ data) as [r |] eqn:Hf; [| reflexivity].
      apply find_some in Hf as [Hin Heq]. apply String.eqb_eq in Heq.
      exfalso. apply Hk0. rewrite <- Heq. apply list_elem_of_fmap.
      exists r. split; [reflexivity | apply list_elem_of_In; exact Hin]. }
    rewrite Hnone. destruct (String.eqb k0 "__proto__"); [reflexivity |].
    apply lookup_insert_eq.
  - assert (E : (if String.eqb k0 "__proto__" then m
                 else <[k0 := (a0, b0)]> m) !! k = m !! k)
      by (destruct (String.eqb k0 "__proto__");
          [reflexivity | apply lookup_insert_ne; exact Hne]).
    rewrite E. reflexivity.
Qed.

Lemma NoDup_row_unique (data : list (string * value * value)) (k : string)
    (a1 b1 a2 b2 : value) :
  NoDup (map row_key data) ->
  (k, a1, b1) ∈ data -> (k, a2, b2) ∈ data -> a1 = a2 /\ b1 = b2.
Proof.
  induction data as [| r data IH]; intros Hnd H1 H2.
  - apply elem_of_nil in H1. contradiction.
  - cbn [map] in Hnd. apply NoDup_cons in Hnd as [Hr Hnd].
    apply elem_of_cons in H1 as [E1 | H1], H2 as [E2 | H2].
    + rewrite <- E2 in E1. injection E1 as -> ->. auto.
    + exfalso. apply Hr. subst r. apply list_elem_of_fmap.
      exists (k, a2, b2). auto.
    + exfalso. apply Hr. subst r. apply list_elem_of_fmap.
      exists (k, a1, b1). auto.
    + exact (IH Hnd H1 H2).
Qed.

(** X22. A GET never writes. When the table can be read and holds one row
    per game id, the reply carries the caller's edit flag and the scores:
    under each game id other than [__proto__] the two values of its row,
    and nothing under any other key; a row of the id [__proto__] is not in
    the reply. When the table cannot be read the reply is 500 with the
    message of the table. *)
Theorem handler_GET (be : Api.backend) (req : Api.request) :
  Api.method req = "GET" ->
  snd (Api.handler be req) = None /\
  (forall msg, Api.select_scores be = inl msg ->
     fst (Api.handler be req) = Api.Json 500 msg) /\
  (forall data, Api.select_scores be = inr data ->
     NoDup (map row_key data) ->
     exists m, fst (Api.handler be req)
                 = Api.JsonScores m (Api.canEditFromRequest be req) /\
       forall k ra rb, m !! k = Some (ra, rb) <->
                       (k, ra, rb) ∈ data /\ k <> "__proto__").
Proof.
  intros Hm. unfold Api.handler. rewrite Hm.
  cbn [String.eqb Ascii.eqb Bool.eqb].
  split; [destruct (Api.select_scores be); reflexivity |]. split.
  - intros msg ->. reflexivity.
  - intros data -> Hnd. eexists. split; [reflexivity |].
    intros k ra rb. rewrite (scores_map_lookup _ _ _ Hnd). split.
    + destruct (List.find _ data) as [[[k' a'] b'] |] eqn:Hf.
      * apply find_some in Hf as [Hin Heq]. apply String.eqb_eq in Heq.
        cbn in Heq. subst k'.
        destruct (String.eqb_spec k "__proto__") as [_ | Hne];
          [rewrite lookup_empty; discriminate |].
        cbn. intros [= <- <-].
        split; [apply list_elem_of_In; exact Hin | exact Hne].
      * rewrite lookup_empty. discriminate.
    + intros [Hin Hne].
      destruct (List.find _ data) as [[[k' a'] b'] |] eqn:Hf.
      * apply find_some in Hf as [Hin' Heq]. apply String.eqb_eq in Heq.
        cbn in Heq. subst k'. apply String.eqb_neq in Hne. rewrite Hne. cbn.
        destruct (NoDup_row_unique data k a' b' ra rb Hnd) as [-> ->]; auto.
        apply list_elem_of_In. exact Hin'.
      * exfalso. apply list_elem_of_In in Hin.
        apply (find_none _ _ Hf) in Hin. cbn in Hin.
        rewrite String.eqb_refl in Hin. discriminate.
Qed.

Lemma handler_GET_witness :
  exists m, fst (Api.handler listed_backend get_request)
              = Api.JsonScores m false /\
    m !! "D1G1" = Some (Num (num_of_Z 10), Num (num_of_Z 3)) /\
    m !! "__proto__" = None.
Proof.
  destruct (handler_GET listed_backend get_request eq_refl) as (_ & _ & H).
  destruct (H _ eq_refl) as (m & Hm & Hrows).
  { apply (bool_decide_unpack _). vm_compute. exact I. }
  exists m. split; [exact Hm |]. split.
  - apply Hrows. split; [constructor | discriminate].
  - destruct (m !! "__proto__") as [[ra rb] |] eqn:E; [| reflexivity].
    apply Hrows in E as [_ E]. contradiction.
Defined.

(** ** Team names *)

Lemma skip_space_result (l : list ascii) :
  match skip_space l with
  | [] => True
  | c :: _ => is_space c = false
  end.
Proof.
  induction l as [| c l IH]; [exact I |].
  simpl. destruct (is_space c) eqn:Hc; [exact IH | exact Hc].
Qed.

Lemma trim_list_trimmed (l : list ascii) : trimmed (trim_list l).
Proof.
  unfold trimmed, trim_list. rewrite rev_involutive.
  split; [| apply skip_space_result].
  destruct (skip_space_split (rev (skip_space l))) as (w & Hw & _).
  pose proof (skip_space_result l) as H1.
  pose proof (skip_space_result (rev (skip_space l))) as H2.
  set (m := skip_space (rev (skip_space l))) in *.
  apply (f_equal (@rev ascii)) in Hw.
  rewrite rev_involutive, rev_app_distr in Hw.
  destruct (rev m) as [| c r] eqn:Hm; [exact I |].
  rewrite Hw in H1. exact H1.
Qed.

Lemma trim_list_nil (l : list ascii) : trim_list l = [] -> all_space l.
Proof.
  intros H. destruct (trim_list_split l) as (w1 & w3 & Hl & H1 & H3).
  rewrite H in Hl. rewrite Hl. apply Forall_app. split; assumption.
Qed.

Lemma chars_trim (s : string) : chars (trim s) = trim_list (chars s).
Proof. unfold chars, trim. apply list_ascii_of_string_of_list_ascii. Qed.

Lemma placeholder_kept (i : nat) :
  (i < 16)%nat ->
  trim ("Team " +:+ String_of_Z (Z.of_nat i + 1))
    = "Team " +:+ String_of_Z (Z.of_nat i + 1) /\
  "Team " +:+ String_of_Z (Z.of_nat i + 1) <> "".
Proof.
  intros Hi. do 16 (destruct i as [| i]; [split; [reflexivity | discriminate] |]).
  lia.
Qed.

Lemma getTeamsFromAdmin_lookup (o g : option (list string)) (i : nat) :
  (i < 16)%nat ->
  getTeamsFromAdmin o g !! i =
    Some (trim (or_default (admin_list o g !! i)
                           ("Team " +:+ String_of_Z (Z.of_nat i + 1)))).
Proof.
  intros Hi. unfold getTeamsFromAdmin.
  rewrite list_lookup_fmap, lookup_seq_lt by exact Hi.
  destruct o, g; reflexivity.
Qed.

(** X23. [getTeamsFromAdmin] always returns 16 names, none of which starts
    or ends with whitespace. Slot [i] holds the placeholder "Team i+1" when
    the list read has no name or the empty name there, and the supplied name
    trimmed otherwise. Names after the 16th are ignored, the override is
    preferred to the global list, and the global list is read when there is
    no override. *)
Theorem getTeamsFromAdmin_slots (teamsOverride TOURNAMENT_TEAMS
    : option (list string)) (i : nat) :
  let adminTeams := admin_list teamsOverride TOURNAMENT_TEAMS in
  let teams := getTeamsFromAdmin teamsOverride TOURNAMENT_TEAMS in
  length teams = 16%nat /\
  Forall (fun t => trimmed (chars t)) teams /\
  ((i < 16)%nat ->
     (adminTeams !! i = None \/ adminTeams !! i = Some "" ->
        teams !! i = Some ("Team " +:+ String_of_Z (Z.of_nat i + 1))) /\
     (forall name, adminTeams !! i = Some name -> name <> "" ->
        teams !! i = Some (trim name))) /\
  teams = getTeamsFromAdmin (Some (take 16 adminTeams)) None.
Proof.
  intros adminTeams teams. split; [| split; [| split]].
  - unfold teams, getTeamsFromAdmin. rewrite length_map, length_seq. reflexivity.
  - unfold teams, getTeamsFromAdmin. apply Forall_map, Forall_forall.
    intros k _. cbn. rewrite chars_trim. apply trim_list_trimmed.
  - intros Hi. unfold teams. rewrite (getTeamsFromAdmin_lookup _ _ _ Hi).
    fold adminTeams. split.
    + intros [-> | ->]; cbn [or_default truthy_str String.eqb negb];
        rewrite (proj1 (placeholder_kept i Hi)); reflexivity.
    + intros name -> Hne. unfold or_default, truthy_str.
      apply String.eqb_neq in Hne. rewrite Hne. reflexivity.
  - unfold teams, getTeamsFromAdmin. apply map_ext_in. intros k Hk.
    apply in_seq in Hk. fold adminTeams. cbn [admin_list].
    assert (E : take 16 adminTeams !! k = adminTeams !! k)
      by (apply lookup_take_lt; lia).
    unfold adminTeams, admin_list in *.
    destruct teamsOverride, TOURNAMENT_TEAMS; rewrite E; reflexivity.
Qed.

Lemma getTeamsFromAdmin_slots_witness :
  getTeamsFromAdmin (Some ["  Lakers "; ""]) None !! 0%nat = Some "Lakers" /\
  getTeamsFromAdmin (Some ["  Lakers "; ""]) None !! 1%nat = Some "Team 2".
Proof.
  destruct (getTeamsFromAdmin_slots (Some ["  Lakers "; ""]) None 0)
    as (_ & _ & H0 & _).
  destruct (getTeamsFromAdmin_slots (Some ["  Lakers "; ""]) None 1)
    as (_ & _ & H1 & _).
  split.
  - exact (proj2 (H0 ltac:(lia)) "  Lakers " eq_refl ltac:(discriminate)).
  - apply (proj1 (H1 ltac:(lia))). right. reflexivity.
Defined.

Lemma not_blank_trim (name : string) : not_blank name -> trim name <> "".
Proof.
  intros Hnb Ht. apply (f_equal chars) in Ht. rewrite chars_trim in Ht.
  apply trim_list_nil in Ht. unfold not_blank in Hnb.
  apply Exists_exists in Hnb as (c & Hin & Hc).
  unfold all_space in Ht. rewrite Forall_forall in Ht.
  rewrite (Ht c Hin) in Hc. discriminate.
Qed.

Lemma team_not_empty (o g : option (list string)) (i : nat) :
  (i < 16)%nat ->
  (forall name, admin_list o g !! i = Some name -> name <> "" -> not_blank name) ->
  exists t, getTeamsFromAdmin o g !! i = Some t /\ t <> "".
Proof.
  intros Hi Hnb. rewrite (getTeamsFromAdmin_lookup _ _ _ Hi).
  eexists. split; [reflexivity |].
  destruct (admin_list o g !! i) as [name |] eqn:Hn.
  - unfold or_default, truthy_str.
    destruct (String.eqb_spec name "") as [-> | Hne]; cbn [negb].
    + rewrite (proj1 (placeholder_kept i Hi)). apply placeholder_kept, Hi.
    + apply not_blank_trim, (Hnb name); auto.
  - cbn [or_default]. rewrite (proj1 (placeholder_kept i Hi)).
    apply placeholder_kept, Hi.
Qed.

(** X24. When no supplied name is made of whitespace only, every Day-1 game
    of the bracket built from the names [getTeamsFromAdmin] returns carries
    two names that are not empty, and [resolveTeamsForGame] returns exactly
    these two, whatever the ledger holds. *)
Theorem seeded_games_resolve (teamsOverride TOURNAMENT_TEAMS
    : option (list string)) (cfg : config) (gs : games) (state : State)
    (g : game) :
  buildGames (getTeamsFromAdmin teamsOverride TOURNAMENT_TEAMS) cfg = Ok gs ->
  (forall i name, (i < 16)%nat ->
     admin_list teamsOverride TOURNAMENT_TEAMS !! i = Some name ->
     name <> "" -> not_blank name) ->
  g ∈ day1 gs ->
  exists tA tB,
    teamA g = Some tA /\ teamB g = Some tB /\ tA <> "" /\ tB <> "" /\
    resolveTeamsForGame g state = {| pairA := tA; pairB := tB |}.
Proof.
  intros Hgs Hnb Hg.
  destruct (buildGames_inv _ _ _ Hgs) as [_ _ H1 _ _ Hseeds _ _].
  apply list_elem_of_lookup in Hg as [k Hk].
  assert (Hlt : (k < 8)%nat).
  { apply lookup_lt_Some in Hk.
    rewrite <- (length_map id), H1 in Hk. exact Hk. }
  apply (f_equal (fun l => l !! k)) in Hseeds.
  rewrite list_lookup_fmap, Hk in Hseeds. unfold seeds in Hseeds.
  rewrite list_lookup_fmap, lookup_seq_lt in Hseeds by exact Hlt.
  cbn [fmap option_fmap option_map Nat.add] in Hseeds.
  pose proof (f_equal (fun o => fst <$> o) Hseeds) as HA.
  pose proof (f_equal (fun o => snd <$> o) Hseeds) as HB.
  cbn [fmap option_fmap option_map fst snd] in HA, HB.
  injection HA as HA. injection HB as HB.
  destruct (team_not_empty teamsOverride TOURNAMENT_TEAMS (k * 2))
    as (tA & EA & NA); [lia | intros name; apply Hnb; lia |].
  destruct (team_not_empty teamsOverride TOURNAMENT_TEAMS (k * 2 + 1))
    as (tB & EB & NB); [lia | intros name; apply Hnb; lia |].
  rewrite EA in HA. rewrite EB in HB.
  exists tA, tB. repeat split; try assumption.
  unfold resolveTeamsForGame. rewrite HA, HB. unfold truthy_str.
  apply String.eqb_neq in NA, NB. rewrite NA, NB. reflexivity.
Qed.

Lemma seeded_games_resolve_witness :
  exists g, day1 default_games !! 0%nat = Some g /\
    resolveTeamsForGame g sample_state
      = {| pairA := "Team 1"; pairB := "Team 2" |}.
Proof.
  eexists. split; [reflexivity |].
  match goal with
  | |- resolveTeamsForGame ?g _ = _ =>
      destruct (seeded_games_resolve None None default_config default_games
                  sample_state g default_games_built)
        as (tA & tB & HA & HB & _ & _ & Hr)
  end.
  - intros i name _ Hn. destruct i; discriminate Hn.
  - constructor.
  - injection HA as <-. injection HB as <-. exact Hr.
Defined.

(** ** Typed digits *)

Lemma shr_1_nonneg (mrs : shr_record) : shr_nonneg mrs -> shr_nonneg (shr_1 mrs).
Proof.
  unfold shr_nonneg. destruct mrs as [m r s]. cbn [shr_m].
  destruct m as [| [p | p |] | p]; cbn; lia.
Qed.

Lemma iter_pos_nonneg (p : positive) (mrs : shr_record) :
  shr_nonneg mrs -> shr_nonneg (SpecFloat.iter_pos shr_1 p mrs).
Proof.
  revert mrs. induction p as [p IH | p IH |]; intros mrs H; cbn.
  - apply IH, IH, shr_1_nonneg, H.
  - apply IH, IH, H.
  - apply shr_1_nonneg, H.
Qed.

Lemma shr_fexp_nonneg (m e : Z) (l : location) :
  0 <= m -> shr_nonneg (fst (shr_fexp prec emax m e l)).
Proof.
  intros Hm. unfold shr_fexp, shr.
  assert (H0 : shr_nonneg (shr_record_of_loc m l))
    by (unfold shr_nonneg; destruct l as [| []]; exact Hm).
  destruct (_ - e); cbn [fst]; try exact H0.
  apply iter_pos_nonneg, H0.
Qed.

Lemma round_nearest_even_nonneg (m : Z) (l : location) :
  0 <= m -> 0 <= round_nearest_even m l.
Proof.
  intros Hm. unfold round_nearest_even.
  destruct l as [| []]; try destruct (Z.even m); lia.
Qed.

Lemma binary_round_aux_non_negative (mx ex : Z) (lx : location) :
  0 <= mx -> non_negative (binary_round_aux prec emax false mx ex lx) = true.
Proof.
  intros Hm. unfold binary_round_aux.
  pose proof (shr_fexp_nonneg mx ex lx Hm) as H1.
  destruct (shr_fexp prec emax mx ex lx) as [mrs' e']. cbn [fst] in H1.
  pose proof (shr_fexp_nonneg
                (round_nearest_even (shr_m mrs') (loc_of_shr_record mrs'))
                e' loc_Exact (round_nearest_even_nonneg _ _ H1)) as H2.
  destruct (shr_fexp prec emax _ e' loc_Exact) as [mrs'' e'']. cbn [fst] in H2.
  unfold shr_nonneg in H2.
  destruct (shr_m mrs'') as [| p | p]; [reflexivity | | lia].
  destruct (e'' <=? emax - prec); reflexivity.
Qed.

Lemma num_of_N_non_negative (n : N) : non_negative (num_of_Z (Z.of_N n)) = true.
Proof.
  unfold num_of_Z, binary_normalize. destruct n as [| p]; [reflexivity |].
  cbn [Z.of_N]. unfold binary_round.
  destruct (shl_align p 0 _) as [mz ez].
  apply binary_round_aux_non_negative. lia.
Qed.

Lemma span_digits_all (l : list ascii) : all_digit l -> span_digits l = (l, []).
Proof.
  induction 1 as [| c l Hc _ IH]; [reflexivity |].
  cbn. rewrite Hc, IH. reflexivity.
Qed.

Lemma digit_not_marker (c : ascii) :
  is_digit c = true ->
  forall m, In m (chars "xXoObB+-I.") -> Ascii.eqb c m = false.
Proof.
  intros Hc m Hm. apply Ascii.eqb_neq. intros ->.
  cbn in Hm. repeat destruct Hm as [<- | Hm]; try discriminate Hc.
  exact Hm.
Qed.

Lemma skip_space_digits (l : list ascii) : all_digit l -> skip_space l = l.
Proof.
  intros H. destruct l as [| c l]; [reflexivity |].
  apply Forall_cons in H as [Hc _]. apply skip_space_head, digit_not_space, Hc.
Qed.

Lemma trim_list_digits (l : list ascii) : all_digit l -> trim_list l = l.
Proof.
  intros H. unfold trim_list.
  rewrite (skip_space_digits l H), (skip_space_digits (rev l)).
  - apply rev_involutive.
  - unfold all_digit in *. rewrite Forall_forall in *. intros c Hc.
    apply H. apply list_elem_of_In. apply list_elem_of_In, in_rev in Hc.
    exact Hc.
Qed.

Lemma unsigned_decimal_digits (l : list ascii) :
  all_digit l -> l <> [] ->
  unsigned_decimal false l = Some (num_of_Z (Z.of_N (digits_value l))).
Proof.
  intros H Hne. unfold unsigned_decimal.
  destruct (decide (l = list_ascii_of_string "Infinity")) as [-> | _].
  { apply Forall_cons in H as [Hc _]. discriminate Hc. }
  rewrite (span_digits_all l H).
  destruct l as [| c r]; [contradiction |].
  cbn [exponent_part]. unfold round_decimal, num_of_Z, binary_normalize.
  destruct (digits_value (c :: r)) as [| p]; [reflexivity |].
  change (10 ^ 0) with 1. rewrite Z.mul_1_r. reflexivity.
Qed.

Lemma numeric_literal_digits (l : list ascii) :
  all_digit l -> numeric_literal l = unsigned_decimal false l.
Proof.
  intros H. destruct l as [| c l]; [reflexivity |].
  apply Forall_cons in H as [Hc H].
  destruct c as [[] [] [] [] [] [] [] []]; try discriminate Hc;
    try reflexivity.
  destruct l as [| p r]; [reflexivity |].
  apply Forall_cons in H as [Hp _]. unfold numeric_literal.
  rewrite !(digit_not_marker p Hp) by (cbn; tauto). reflexivity.
Qed.

(** X25. What the client stores for a typed text always coerces to a number
    that is neither negative nor [NaN]: the number that the digits of the
    text denote in base ten, rounded to the nearest double, and 0 for a text
    without digits. *)
Theorem typed_digits_number (raw : string) :
  Number (Str (digits_only raw))
    = num_of_Z (Z.of_N (digits_value (chars (digits_only raw)))) /\
  non_negative (Number (Str (digits_only raw))) = true /\
  (Forall (fun c => is_digit c = false) (chars raw) ->
     digits_only raw = "" /\ Number (Str (digits_only raw)) = pos_zero).
Proof.
  pose proof (digits_only_digits raw) as Hd. fold (chars (digits_only raw)) in Hd.
  assert (E : Number (Str (digits_only raw))
              = num_of_Z (Z.of_N (digits_value (chars (digits_only raw))))).
  { cbn [Number]. unfold StringToNumber. fold (chars (digits_only raw)).
    rewrite (trim_list_digits _ Hd).
    destruct (chars (digits_only raw)) as [| c r] eqn:Hl; [reflexivity |].
    rewrite (numeric_literal_digits _ Hd), (unsigned_decimal_digits _ Hd);
      [reflexivity | discriminate]. }
  split; [exact E |]. split.
  - rewrite E. apply num_of_N_non_negative.
  - intros Hnone.
    assert (Hempty : digits_only raw = "").
    { unfold digits_only. fold (chars raw).
      induction (chars raw) as [| c l IH]; [reflexivity |].
      apply Forall_cons in Hnone as [Hc Hl]. cbn [List.filter].
      rewrite Hc. exact (IH Hl). }
    split; [exact Hempty |]. rewrite Hempty. reflexivity.
Qed.

Lemma typed_digits_number_witness :
  digits_only "-x." = "" /\ Number (Str (digits_only "-x.")) = pos_zero.
Proof.
  apply (proj2 (proj2 (typed_digits_number "-x."))). repeat constructor.
Defined.

(** ** Kickoff times *)

Lemma addMinutes_Ok_parses (timeStr : string) (k : Z) (r : string) :
  addMinutes timeStr k = Ok r -> exists t, parseTime12h timeStr = Ok t.
Proof.
  unfold addMinutes. destruct (parseTime12h timeStr) as [t | e];
    [eauto | discriminate].
Qed.

Lemma kickoff_parses (timeStr : string) (k : Z) (r : string) :
  addMinutes timeStr k = Ok r -> 0 <= k ->
  exists t, parseTime12h r = Ok t /\ 0 <= h t < 24 /\ 0 <= min t < 60.
Proof.
  intros Hr Hk. destruct (addMinutes_Ok_parses _ _ _ Hr) as [t Ht].
  destruct (addMinutes_value _ k _ Ht Hk) as (Hr' & B1 & B2).
  rewrite Hr in Hr'. injection Hr' as ->.
  eexists. split; [apply formatTime12h_reads_back; assumption |].
  split; assumption.
Qed.

Lemma kickoff_next (timeStr : string) (a : Z) (r r' : string) :
  0 <= a ->
  addMinutes timeStr a = Ok r -> addMinutes timeStr (a + 60) = Ok r' ->
  addMinutes r 60 = Ok r'.
Proof.
  intros Ha Hr Hr'.
  rewrite (addMinutes_add _ a 60 _ Ha ltac:(lia) Hr). exact Hr'.
Qed.

(** X26. In every bracket that [buildGames] returns, the kickoff of every
    game is a text that [parseTime12h] reads as a time of day, hour 0 to 23
    and minute 0 to 59, even when a start time of the configuration is out of
    range. *)
Theorem kickoffs_well_formed (teams : list string) (cfg : config) (gs : games)
    (g : game) :
  buildGames teams cfg = Ok gs ->
  g ∈ all gs ->
  exists t, parseTime12h (hour g) = Ok t /\ 0 <= h t < 24 /\ 0 <= min t < 60.
Proof.
  unfold buildGames. cbv zeta. intros H Hg.
  apply bind_Ok in H as (d1 & Hd1 & H).
  do 7 bind_inv H.
  injection H as <-.
  cbn [seq] in Hd1.
  do 8 (apply mapM_cons_Ok in Hd1 as (? & ? & Hg1 & Hd1 & ->);
        bind_inv Hg1; injection Hg1 as <-).
  injection Hd1 as <-.
  cbn [all app] in Hg.
  repeat (apply elem_of_cons in Hg as [-> | Hg]);
    [.. | apply elem_of_nil in Hg; contradiction];
    cbn [hour]; (eapply kickoff_parses; [eassumption | cbn; lia]).
Qed.

Lemma kickoffs_well_formed_witness :
  exists g t, day3 default_games !! 2%nat = Some g /\
    parseTime12h (hour g) = Ok t /\ 0 <= h t < 24.
Proof.
  eexists.
  match goal with
  | |- exists t, ?l !! _ = Some ?g /\ _ =>
      destruct (kickoffs_well_formed default_teams default_config
                  default_games
                  {| id := "D3F"; day := "Day 3"; timeSlot := "Evening";
                     hour := "6:00 PM"; court := "Dolphins Court";
                     teamA := None; teamB := None;
                     dependsOn := ["D3SF1"; "D3SF2"];
                     label := Some "Championship Game" |}
                  default_games_built)
        as (t & Ht & Hh & _)
  end.
  - unfold default_games. cbn [all]. set_solver.
  - exists t. split; [reflexivity |]. split; [exact Ht | exact Hh].
Defined.

(** X27. In every bracket that [buildGames] returns, successive games of a
    half day start one hour apart: within Day-1 games 1 to 4, within Day-1
    games 5 to 8, between the two Day-2 games of the morning and the two of
    the evening, and between the second semifinal and the final, the kickoff
    of a game is [addMinutes] of the kickoff before it and 60. *)
Theorem kickoffs_hourly (teams : list string) (cfg : config) (gs : games)
    (i : nat) (g g' : game) :
  buildGames teams cfg = Ok gs ->
  (day1 gs !! i = Some g /\ day1 gs !! S i = Some g' /\ i <> 3%nat) \/
  (day2 gs !! i = Some g /\ day2 gs !! S i = Some g' /\ i <> 1%nat) \/
  (day3 gs !! 1%nat = Some g /\ day3 gs !! 2%nat = Some g') ->
  addMinutes (hour g) 60 = Ok (hour g').
Proof.
  unfold buildGames. cbv zeta. intros H Hcase.
  apply bind_Ok in H as (d1 & Hd1 & H).
  do 7 bind_inv H.
  injection H as <-.
  cbn [seq] in Hd1.
  do 8 (apply mapM_cons_Ok in Hd1 as (? & ? & Hg1 & Hd1 & ->);
        bind_inv Hg1; injection Hg1 as <-).
  injection Hd1 as <-.
  cbn [day1 day2 day3] in Hcase.
  destruct Hcase as [(Hg & Hg' & Hi) | [(Hg & Hg' & Hi) | (Hg & Hg')]].
  - do 7 (destruct i as [| i]; [try contradiction;
      injection Hg as <-; injection Hg' as <-; cbn [hour];
      (eapply kickoff_next; [| eassumption | eassumption]); cbn; lia |]).
    destruct i; discriminate Hg'.
  - do 3 (destruct i as [| i]; [try contradiction;
      injection Hg as <-; injection Hg' as <-; cbn [hour];
      (eapply kickoff_next; [| eassumption | eassumption]); cbn; lia |]).
    destruct i; discriminate Hg'.
  - injection Hg as <-. injection Hg' as <-. cbn [hour].
    eapply kickoff_next; [| eassumption | eassumption]. cbn; lia.
Qed.

Lemma kickoffs_hourly_witness :
  exists g g', day1 default_games !! 1%nat = Some g /\
    day1 default_games !! 2%nat = Some g' /\
    addMinutes (hour g) 60 = Ok (hour g').
Proof.
  eexists _, _. split; [reflexivity |]. split; [reflexivity |].
  apply (kickoffs_hourly default_teams default_config default_games 1
           _ _ default_games_built).
  left. split; [reflexivity |]. split; [reflexivity | discriminate].
Defined.

(** ** From the client to the endpoint *)


